(** * UnetModel: the adversarial training / validation orchestrator

    A shallow embedding of [wm/model/unet/unet_model.py].

    Scalars are rationals: every finite float is one, and the arithmetic
    of the source is read exactly (no rounding error inside the range of
    the floats).  The non-finite values that this idealisation keeps are
    the ones numpy produces when the metric divides by a zero element
    count, and the infinities of a loss that leaves the range of the
    default tensor type, float32.

    Tensors are two-dimensional: one row per sample of the batch, the
    remaining dimensions of a sample flattened into the row.  The two
    tensors of the batch, whose [shape] the methods index, may also have
    one dimension or none. *)

From Stdlib Require Import QArith Qround Qabs Lqa.
From stdpp Require Import gmap strings list.

Open Scope Q_scope.

(** ** Python results *)

Inductive exn :=
| KeyError (key : string)
| TypeError (msg : string)
| ValueError (msg : string)
| RuntimeError (msg : string)
| IndexError (msg : string)
| OverflowError (msg : string).

Inductive result (A : Type) :=
| Ok (a : A)
| Err (e : exn).
Arguments Ok {A} a.
Arguments Err {A} e.

Definition is_Ok {A} (r : result A) : Prop := exists a, r = Ok a.
Definition is_Err {A} (r : result A) : Prop := exists e, r = Err e.

Definition succeeded {A} (r : result A) : bool :=
  match r with
  | Ok _ => true
  | Err _ => false
  end.

Global Instance result_ret : MRet result := fun A a => Ok a.

Global Instance result_bind : MBind result := fun A B k r =>
  match r with
  | Ok a => k a
  | Err e => Err e
  end.

(** ** Arrays (numpy / tensor payloads) *)

Module Np.

Record ndarray := NdArray { shape1 : nat; rows : list (list Q) }.

Definition shape0 (a : ndarray) : nat := length (rows a).

(** Every row has [shape1] entries. *)
Definition wf (a : ndarray) : Prop :=
  Forall (fun r => length r = shape1 a) (rows a).

Definition has_shape (n l : nat) (a : ndarray) : Prop :=
  shape0 a = n /\ shape1 a = l /\ wf a.

(** [np.full((n, l), v)] and [torch.full((n, l), v)]. *)
Definition full (n l : nat) (v : Q) : ndarray :=
  NdArray l (repeat (repeat v l) n).

Definition map (f : Q -> Q) (a : ndarray) : ndarray :=
  NdArray (shape1 a) (List.map (List.map f) (rows a)).

(** Broadcasting of one dimension: equal extents, or one of them is 1. *)
Definition bdim (a b : nat) : option nat :=
  if (a =? b)%nat then Some a
  else if (a =? 1)%nat then Some b
  else if (b =? 1)%nat then Some a
  else None.

Definition stretch {A} (n : nat) (l : list A) : list A :=
  if (length l =? n)%nat then l
  else match l with
       | [x] => repeat x n
       | _ => l
       end.

(** An element-wise binary operation under the broadcasting rule. *)
Definition broadcast2 (f : Q -> Q -> Q) (a b : ndarray) : result ndarray :=
  match bdim (shape0 a) (shape0 b), bdim (shape1 a) (shape1 b) with
  | Some n, Some l =>
      Ok (NdArray l
            (zip_with (fun r s => zip_with f (stretch l r) (stretch l s))
               (stretch n (rows a)) (stretch n (rows b))))
  | _, _ => Err (ValueError "operands could not be broadcast together")
  end.

Definition sub : ndarray -> ndarray -> result ndarray := broadcast2 Qminus.

Definition Qsum (l : list Q) : Q := foldr Qplus 0 l.

(** [np.sum(a)]: over all elements. *)
Definition sum (a : ndarray) : Q := Qsum (List.map Qsum (rows a)).

(** Number of elements. *)
Definition numel (a : ndarray) : nat := (shape0 a * shape1 a)%nat.

Definition abs : ndarray -> ndarray := map Qabs.

(** [ndarray.round()]: to the nearest integer, ties to the even one. *)
Definition round1 (q : Q) : Q :=
  let f := Qfloor q in
  match (q - inject_Z f) ?= (1 # 2) with
  | Lt => inject_Z f
  | Gt => inject_Z (f + 1)
  | Eq => inject_Z (if Z.even f then f else f + 1)
  end.

Definition round : ndarray -> ndarray := map round1.

(** [ndarray.clip(lo, hi)] is [minimum(maximum(x, lo), hi)]. *)
Definition clip1 (lo hi q : Q) : Q :=
  let m := if Qle_bool lo q then q else lo in
  if Qle_bool m hi then m else hi.

Definition clip (lo hi : Q) : ndarray -> ndarray := map (clip1 lo hi).

(** The value of a float scalar divided by a Python int.  numpy only warns
    on a zero divisor and yields a non-finite value. *)
Inductive npfloat :=
| Fin (q : Q)
| PInf
| NInf
| NaN.

Definition div (x : Q) (n : nat) : npfloat :=
  match n with
  | O => match x ?= 0 with
         | Eq => NaN
         | Gt => PInf
         | Lt => NInf
         end
  | S _ => Fin (x / inject_Z (Z.of_nat n))
  end.

End Np.

Import Np.

(** ** The tensors of a batch

    [images] and [messages] as the caller passes them: of two dimensions
    (one row per sample), of one, or of none. *)
Inductive Input :=
| Dim0 (x : Q)
| Dim1 (row : list Q)
| Dim2 (a : ndarray).

Coercion Dim2 : ndarray >-> Input.

(** [t.shape] *)
Definition shape (t : Input) : list nat :=
  match t with
  | Dim0 _ => []
  | Dim1 row => [length row]
  | Dim2 a => [shape0 a; shape1 a]
  end.

(** [t.shape[i]] *)
Definition shape_getitem (t : Input) (i : nat) : result nat :=
  match shape t !! i with
  | Some n => Ok n
  | None => Err (IndexError "tuple index out of range")
  end.

(** The payload under the broadcasting rule, which reads a tensor of fewer
    dimensions as a single row. *)
Definition view (t : Input) : ndarray :=
  match t with
  | Dim0 x => NdArray 1 [[x]]
  | Dim1 row => NdArray (length row) [row]
  | Dim2 a => a
  end.

(** ** The bitwise error metric (lines 91-93 and 144-146)

    [decoded] is the payload of [decoded_messages]; [batch_size] is
    [images.shape[0]].  The sum is evaluated before the divisor. *)

Definition decoded_rounded (decoded : ndarray) : ndarray :=
  Np.clip 0 1 (Np.round decoded).

Definition bitwise_avg_err (batch_size : nat) (decoded : ndarray) (messages : Input)
  : result npfloat :=
  match Np.sub (decoded_rounded decoded) (view messages) with
  | Ok d =>
      match shape_getitem messages 1 with
      | Ok message_length =>
          Ok (Np.div (Np.sum (Np.abs d)) (batch_size * message_length))
      | Err e => Err e
      end
  | Err e => Err e
  end.

(** The wording of the specification: clamp to [0,1] first, then round. *)
Definition spec_rounded (decoded : ndarray) : ndarray :=
  Np.round (Np.clip 0 1 decoded).

Definition binary (a : ndarray) : Prop :=
  Forall (Forall (fun q => q == 0 \/ q == 1)) (rows a).

Definition Qnat (n : nat) : Q := inject_Z (Z.of_nat n).

(** The sum of the squared differences of two arrays of one shape. *)
Definition squared_error (a b : ndarray) : Q :=
  Np.Qsum (List.map Np.Qsum
             (zip_with (zip_with (fun x y => (x - y) * (x - y))) (rows a) (rows b))).

(** Entry-wise relation between two arrays. *)
Definition entrywise (P : Q -> Q -> Prop) (a b : ndarray) : Prop :=
  Forall2 (Forall2 P) (rows a) (rows b).

(** The metric in the words of the specification: the sum of the absolute
    differences between the clamped-then-rounded decoded bits and the true
    bits, over N times the message length. *)
Definition spec_bitwise_error (n l : nat) (decoded messages : ndarray) : Q :=
  Qsum (List.map Qsum
          (zip_with (zip_with (fun d m => Qabs (d - m)))
             (rows (spec_rounded decoded)) (rows messages)))
  / Qnat (n * l).


(** ** Float scalars with their non-finite values *)

Module Float.

(** The largest finite value of a float32, [(2 - 2^-23) * 2^127]. *)
Definition largest : Q := inject_Z (2 ^ 128 - 2 ^ 104).

(** A number as a float32: beyond the range it is an infinity. *)
Definition of_Q (q : Q) : npfloat :=
  if Qle_bool (Qabs q) largest then Fin q
  else if Qle_bool 0 q then PInf else NInf.

(** A Python number as the factor of a float32 tensor. *)
Definition cast (a : npfloat) : npfloat :=
  match a with
  | Fin q => of_Q q
  | _ => a
  end.

Definition sign_inf (s : comparison) (pos neg : npfloat) : npfloat :=
  match s with
  | Eq => NaN
  | Gt => pos
  | Lt => neg
  end.

(** [a * b] for a Python number [a] and a float32 [b]. *)
Definition mul (a b : npfloat) : npfloat :=
  match cast a, b with
  | NaN, _ | _, NaN => NaN
  | Fin x, Fin y => of_Q (x * y)
  | Fin x, PInf | PInf, Fin x => sign_inf (x ?= 0) PInf NInf
  | Fin x, NInf | NInf, Fin x => sign_inf (x ?= 0) NInf PInf
  | PInf, PInf | NInf, NInf => PInf
  | PInf, NInf | NInf, PInf => NInf
  end.

(** [a + b] for two float32 values. *)
Definition add (a b : npfloat) : npfloat :=
  match a, b with
  | NaN, _ | _, NaN => NaN
  | Fin x, Fin y => of_Q (x + y)
  | PInf, NInf | NInf, PInf => NaN
  | PInf, _ | _, PInf => PInf
  | NInf, _ | _, NInf => NInf
  end.

(** The mean of [n] float32 values from their sum. *)
Definition mean (sum : npfloat) (n : nat) : npfloat :=
  match sum with
  | Fin x => Np.div x n
  | _ => sum
  end.

(** Finite and not below zero. *)
Definition finite_nonneg (a : npfloat) : Prop :=
  exists q, a = Fin q /\ 0 <= q.

Definition is_negative (a : npfloat) : bool :=
  match a with
  | Fin q => negb (Qle_bool 0 q)
  | NInf => true
  | _ => false
  end.

(** Not below zero: a finite value that is not, or the positive infinity. *)
Definition nonneg (a : npfloat) : Prop :=
  match a with
  | Fin q => 0 <= q
  | PInf => True
  | _ => False
  end.

Definition finite (a : npfloat) : Prop := exists q, a = Fin q.

End Float.

(** ** Python values held by the configuration dict *)

(** [PyNum q] is a number that a tensor takes as a factor, a [float] or an
    [int] of at most 64 bits, by its value; [PyBigInt negative beyond] is an
    [int] outside that range: [2^64 + beyond] or, negative,
    [- 2^63 - 1 - beyond].  [PyOther] is [None] or a container. *)
Inductive PyVal :=
| PyNum (q : Q)
| PyStr (s : string)
| PyOther (tag : string)
| PyBigInt (negative : bool) (beyond : N).

(** [d[k]] *)
Definition getitem (d : gmap string PyVal) (k : string) : result PyVal :=
  match d !! k with
  | Some v => Ok v
  | None => Err (KeyError k)
  end.

(** [d.get(k, default)] *)
Definition get (d : gmap string PyVal) (k : string) (default : PyVal) : PyVal :=
  match d !! k with
  | Some v => v
  | None => default
  end.

(** ** Autograd *)

(** The two parameter sets. *)
Inductive Owner := EncDec | Discrim.

Definition owner_eqb (a b : Owner) : bool :=
  match a, b with
  | EncDec, EncDec | Discrim, Discrim => true
  | _, _ => false
  end.

(** A gradient for each parameter set; [[]] stands for "nothing". *)
Definition Grads := Owner -> list Q.

Definition no_grads : Grads := fun _ => [].

Fixpoint vadd (a b : list Q) : list Q :=
  match a, b with
  | [], _ => b
  | _, [] => a
  | x :: a', y :: b' => (x + y) :: vadd a' b'
  end.

Definition grads_add (a b : Grads) : Grads := fun o => vadd (a o) (b o).

Definition only (o : Owner) (g : list Q) : Grads :=
  fun o' => if owner_eqb o o' then g else [].

(** A tensor: its payload, the [requires_grad] flag and the pullback of the
    graph that produced it, from a cotangent of the tensor to the gradients
    of the parameters the graph reaches. *)
Record Tensor := MkTensor {
  data : ndarray;
  requires_grad : bool;
  grad_fn : ndarray -> Grads
}.

(** A zero-dimensional tensor (a loss). *)
Record Scalar := MkScalar {
  item : npfloat;
  s_requires_grad : bool;
  s_grad_fn : Q -> Grads
}.

(** A tensor that comes from the data loader. *)
Definition leaf (a : ndarray) : Tensor := MkTensor a false (fun _ => no_grads).

(** [t.detach()] *)
Definition detach (t : Tensor) : Tensor :=
  MkTensor (data t) false (fun _ => no_grads).

(** What flows back into the graph of [t]: nothing when [t] does not
    require a gradient. *)
Definition flow_back (t : Tensor) (ct : ndarray) : Grads :=
  if requires_grad t then grad_fn t ct else no_grads.

(** [w * s] for a Python number [w]. *)
Definition scale (w : Q) (s : Scalar) : Scalar :=
  MkScalar (Float.mul (Fin w) (item s)) (s_requires_grad s)
    (fun ct => s_grad_fn s (w * ct)).

(** [a + b] *)
Definition plus (a b : Scalar) : Scalar :=
  MkScalar (Float.add (item a) (item b))
    (s_requires_grad a || s_requires_grad b)
    (fun ct => grads_add
                 (if s_requires_grad a then s_grad_fn a ct else no_grads)
                 (if s_requires_grad b then s_grad_fn b ct else no_grads)).

(** ** Sub-models and optimizers *)

Record Module_ := MkModule {
  hyper : list PyVal;       (* the constructor arguments *)
  parameters : list Q;
  grad : list Q;            (* the [.grad] of the parameters *)
  training : bool
}.

Record AdamState := MkAdam {
  step_count : nat;
  exp_avg : list Q;
  exp_avg_sq : list Q
}.

(** An optimizer holds the parameters of one sub-model (by reference) and
    its own moment estimates. *)
Record Optimizer := MkOptimizer {
  param_owner : Owner;
  state : AdamState
}.

(** Modelled from the spec: the metric-name enumeration [LossNames] of
    [wm.train.loss_names], a fixed enumeration of seven metric names.  The
    strings behind the members are not known; members of a Python [Enum]
    are distinct exactly when their values are. *)
Inductive LossNames :=
| unet_loss | encoder_mse | decoder_mse | bitwise
| gen_adv_bce | discr_cov_bce | discr_enc_bce.

(** ** The collaborators

    The encoder-decoder and discriminator networks, the noise layers, the
    loss functions and the optimizer of the framework, and the values of
    the metric names.  A forward pass reads a sub-model and its inputs and
    changes nothing. *)
Record Collaborators := MkCollaborators {
  torch_device : PyVal -> result string;
  to_device : string -> result unit;
  Noiser : PyVal -> result PyVal;
  UnetEncoderDecoder : list PyVal -> result (list Q);
  Discriminator : list PyVal -> result (list Q);
  enc_dec_forward : Module_ -> ndarray -> ndarray
                    -> result (ndarray * ndarray * ndarray);
  enc_dec_vjp : Module_ -> ndarray -> ndarray
                -> option ndarray * option ndarray * option ndarray -> list Q;
  discrim_forward : Module_ -> ndarray -> result ndarray;
  discrim_vjp_params : Module_ -> ndarray -> ndarray -> list Q;
  discrim_vjp_input : Module_ -> ndarray -> ndarray -> ndarray;
  bce_with_logits : ndarray -> ndarray -> result npfloat;
  bce_with_logits_vjp : ndarray -> ndarray -> Q -> ndarray;
  mse_loss_vjp : ndarray -> ndarray -> Q -> ndarray;
  adam_step : AdamState -> list Q -> list Q -> AdamState * list Q;
  module_str : Module_ -> string;
  value : LossNames -> string;
  value_inj : forall a b, value a = value b -> a = b
}.

(** ** The orchestrator object *)

(** A call into the framework that reads or changes a sub-model. *)
Inductive Event :=
| EvTrain (o : Owner)
| EvEval (o : Owner)
| EvZeroGrad (o : Owner)
| EvForward (o : Owner) (inputs : list ndarray) (inputs_require_grad : bool)
| EvBackward (loss : npfloat)
| EvStep (o : Owner).

Record UnetModel := MkUnetModel {
  device : string;
  encoder_decoder : Module_;
  discriminator : Module_;
  optimizer_enc_dec : Optimizer;
  optimizer_discrim : Optimizer;
  config : gmap string PyVal;
  cover_label : Q;
  encoded_label : Q;
  tb_logger : option PyVal;
  calls : list Event        (* ghost: the framework calls so far, oldest first *)
}.

(** The calls that belong to an optimizer or feed one. *)
Definition optimizer_call (ev : Event) : bool :=
  match ev with
  | EvZeroGrad _ | EvBackward _ | EvStep _ => true
  | _ => false
  end.

Definition LossSet := list (string * npfloat).

(** [OrderedDict({k1: v1, ...})]: a repeated key keeps its first position
    and takes the last value. *)
Fixpoint dict_set (k : string) (v : npfloat) (d : LossSet) : LossSet :=
  match d with
  | [] => [(k, v)]
  | (k', v') :: d' =>
      if String.eqb k k' then (k', v) :: d' else (k', v') :: dict_set k v d'
  end.

Definition OrderedDict (items : list (string * npfloat)) : LossSet :=
  fold_left (fun d kv => dict_set (fst kv) (snd kv) d) items [].

Fixpoint dict_get (k : string) (d : LossSet) : option npfloat :=
  match d with
  | [] => None
  | (k', v) :: d' => if String.eqb k k' then Some v else dict_get k d'
  end.

Definition keys (d : LossSet) : list string := List.map fst d.

(** Every entry of a gradient is zero (also when there is none). *)
Definition all_zero (g : list Q) : bool := forallb (Qeq_bool 0) g.

(** ** Methods run on the object: state and exceptions

    A Python exception leaves the object as it was mutated so far. *)

Definition M (A : Type) : Type := UnetModel -> UnetModel * result A.

Global Instance M_ret : MRet M := fun A a m => (m, Ok a).

Global Instance M_bind : MBind M := fun A B k c m =>
  match c m with
  | (m', Ok a) => k a m'
  | (m', Err e) => (m', Err e)
  end.

Definition lift {A} (r : result A) : M A := fun m => (m, r).

Definition gets {A} (f : UnetModel -> A) : M A := fun m => (m, Ok (f m)).

Definition modify (f : UnetModel -> UnetModel) : M unit :=
  fun m => (f m, Ok tt).

Definition get_module (o : Owner) (m : UnetModel) : Module_ :=
  match o with
  | EncDec => encoder_decoder m
  | Discrim => discriminator m
  end.

Definition set_module (o : Owner) (md : Module_) (m : UnetModel) : UnetModel :=
  match o with
  | EncDec =>
      MkUnetModel (device m) md (discriminator m) (optimizer_enc_dec m)
        (optimizer_discrim m) (config m) (cover_label m) (encoded_label m)
        (tb_logger m) (calls m)
  | Discrim =>
      MkUnetModel (device m) (encoder_decoder m) md (optimizer_enc_dec m)
        (optimizer_discrim m) (config m) (cover_label m) (encoded_label m)
        (tb_logger m) (calls m)
  end.

(** The two optimizer attributes. *)
Inductive OptimizerAttr := self_optimizer_enc_dec | self_optimizer_discrim.

Definition get_optimizer (a : OptimizerAttr) (m : UnetModel) : Optimizer :=
  match a with
  | self_optimizer_enc_dec => optimizer_enc_dec m
  | self_optimizer_discrim => optimizer_discrim m
  end.

Definition set_optimizer (a : OptimizerAttr) (opt : Optimizer) (m : UnetModel)
  : UnetModel :=
  match a with
  | self_optimizer_enc_dec =>
      MkUnetModel (device m) (encoder_decoder m) (discriminator m) opt
        (optimizer_discrim m) (config m) (cover_label m) (encoded_label m)
        (tb_logger m) (calls m)
  | self_optimizer_discrim =>
      MkUnetModel (device m) (encoder_decoder m) (discriminator m)
        (optimizer_enc_dec m) opt (config m) (cover_label m) (encoded_label m)
        (tb_logger m) (calls m)
  end.

Definition log_call (e : Event) (m : UnetModel) : UnetModel :=
  MkUnetModel (device m) (encoder_decoder m) (discriminator m)
    (optimizer_enc_dec m) (optimizer_discrim m) (config m) (cover_label m)
    (encoded_label m) (tb_logger m) (calls m ++ [e]).

Definition set_training (b : bool) (md : Module_) : Module_ :=
  MkModule (hyper md) (parameters md) (grad md) b.

Definition set_grad (g : list Q) (md : Module_) : Module_ :=
  MkModule (hyper md) (parameters md) g (training md).

Definition set_parameters (p : list Q) (md : Module_) : Module_ :=
  MkModule (hyper md) p (grad md) (training md).

(** [module.train()] *)
Definition train (o : Owner) : M unit :=
  modify (fun m => log_call (EvTrain o)
                     (set_module o (set_training true (get_module o m)) m)).

(** [module.eval()] *)
Definition eval (o : Owner) : M unit :=
  modify (fun m => log_call (EvEval o)
                     (set_module o (set_training false (get_module o m)) m)).

(** [optimizer.zero_grad()]: the gradients of the parameters the optimizer
    holds are zeroed in place. *)
Definition zero_grad (a : OptimizerAttr) : M unit :=
  modify (fun m =>
            let o := param_owner (get_optimizer a m) in
            let md := get_module o m in
            log_call (EvZeroGrad o)
              (set_module o (set_grad (List.map (fun _ => 0) (grad md)) md) m)).

(** [loss.backward()]: the gradient of the loss is added to the [.grad] of
    every parameter its graph reaches. *)
Definition accumulate (g : Grads) (m : UnetModel) : UnetModel :=
  let m1 := set_module EncDec
              (set_grad (vadd (grad (encoder_decoder m)) (g EncDec))
                 (encoder_decoder m)) m in
  set_module Discrim
    (set_grad (vadd (grad (discriminator m1)) (g Discrim)) (discriminator m1)) m1.

Definition backward (loss : Scalar) : M unit :=
  if s_requires_grad loss then
    modify (fun m => log_call (EvBackward (item loss))
                       (accumulate (s_grad_fn loss 1) m))
  else
    lift (Err (RuntimeError
                 "element 0 of tensors does not require grad and does not have a grad_fn")).

Section Orchestrator.

Variable T : Collaborators.

(** [optimizer.step()]: one Adam update of the parameters the optimizer
    holds, from their [.grad]. *)
Definition step (a : OptimizerAttr) : M unit :=
  modify (fun m =>
            let opt := get_optimizer a m in
            let o := param_owner opt in
            let md := get_module o m in
            let r := adam_step T (state opt) (parameters md) (grad md) in
            log_call (EvStep o)
              (set_optimizer a (MkOptimizer o (fst r))
                 (set_module o (set_parameters (snd r) md) m))).

(** [self.discriminator(x)], under [torch.enable_grad()] when [grad_mode]
    is set and under [torch.no_grad()] otherwise. *)
Definition call_discriminator (grad_mode : bool) (x : Tensor) : M Tensor :=
  fun m =>
    let md := discriminator m in
    let m' := log_call (EvForward Discrim [data x] (requires_grad x)) m in
    match discrim_forward T md (data x) with
    | Ok y =>
        (m', Ok (MkTensor y grad_mode
                   (fun ct =>
                      grads_add
                        (only Discrim (discrim_vjp_params T md (data x) ct))
                        (flow_back x (discrim_vjp_input T md (data x) ct)))))
    | Err e => (m', Err e)
    end.

(** [self.encoder_decoder(images, messages)] on a batch from the loader. *)
Definition call_encoder_decoder (grad_mode : bool) (images messages : ndarray)
  : M (Tensor * Tensor * Tensor) :=
  fun m =>
    let md := encoder_decoder m in
    let m' := log_call (EvForward EncDec [images; messages] false) m in
    match enc_dec_forward T md images messages with
    | Ok (encoded, noised, decoded) =>
        let pull ct := only EncDec (enc_dec_vjp T md images messages ct) in
        (m', Ok (MkTensor encoded grad_mode (fun ct => pull (Some ct, None, None)),
                 MkTensor noised grad_mode (fun ct => pull (None, Some ct, None)),
                 MkTensor decoded grad_mode (fun ct => pull (None, None, Some ct))))
    | Err e => (m', Err e)
    end.

(** [f.binary_cross_entropy_with_logits(input, target)] *)
Definition binary_cross_entropy_with_logits (input : Tensor) (target : ndarray)
  : result Scalar :=
  match bce_with_logits T (data input) target with
  | Ok v =>
      Ok (MkScalar v (requires_grad input)
            (fun ct => flow_back input (bce_with_logits_vjp T (data input) target ct)))
  | Err e => Err e
  end.

(** [f.mse_loss(input, target)]: the mean of the squared differences.  No
    square is below zero, so a float32 sum is infinite exactly when the sum
    is beyond the range. *)
Definition mse_loss (input : Tensor) (target : ndarray) : result Scalar :=
  match Np.broadcast2 (fun x y => (x - y) * (x - y)) (data input) target with
  | Ok sq =>
      Ok (MkScalar (Float.mean (Float.of_Q (Np.sum sq)) (Np.numel sq))
            (requires_grad input)
            (fun ct => flow_back input (mse_loss_vjp T (data input) target ct)))
  | Err _ =>
      Err (RuntimeError "The size of tensor a must match the size of tensor b")
  end.

(** [number * loss] for a value of the configuration. *)
Definition py_mul (w : PyVal) (s : Scalar) : result Scalar :=
  match w with
  | PyNum q => Ok (scale q s)
  | PyBigInt _ _ => Err (OverflowError "int too big to convert")
  | _ => Err (TypeError "unsupported operand type(s) for *")
  end.

(** Lines 85-86 and 141-142, evaluated left to right. *)
Definition joint_loss (cfg : gmap string PyVal)
    (g_loss_adv g_loss_enc g_loss_dec : Scalar) : result Scalar :=
  match getitem cfg "adv_loss_weight" with
  | Err e => Err e
  | Ok w_adv =>
  match py_mul w_adv g_loss_adv with
  | Err e => Err e
  | Ok adv =>
  match getitem cfg "enc_loss_weight" with
  | Err e => Err e
  | Ok w_enc =>
  match py_mul w_enc g_loss_enc with
  | Err e => Err e
  | Ok enc =>
  match py_mul (get cfg "dec_loss_weight" (PyNum 1)) g_loss_dec with
  | Err e => Err e
  | Ok dec => Ok (plus (plus adv enc) dec)
  end end end end end.

(** Lines 104-112 and 148-156. *)
Definition losses (g_loss g_loss_enc g_loss_dec : Scalar) (bitwise_avg_err : npfloat)
    (g_loss_adv d_loss_on_cover d_loss_on_encoded : Scalar) : LossSet :=
  OrderedDict
    [ (value T unet_loss, item g_loss);
      (value T encoder_mse, item g_loss_enc);
      (value T decoder_mse, item g_loss_dec);
      (value T bitwise, bitwise_avg_err);
      (value T gen_adv_bce, item g_loss_adv);
      (value T discr_cov_bce, item d_loss_on_cover);
      (value T discr_enc_bce, item d_loss_on_encoded) ].

(** Lines 58-74: the discriminator phase.  It hands on what the generator
    phase and the metrics use. *)
Definition discriminator_phase (batch_size : nat) (images messages : ndarray)
  : M (ndarray * Scalar * Scalar * (Tensor * Tensor * Tensor)) :=
  zero_grad self_optimizer_discrim ;;
  cover ← gets cover_label ;
  encoded ← gets encoded_label ;
  let d_target_label_cover := Np.full batch_size 1 cover in
  let d_target_label_encoded := Np.full batch_size 1 encoded in
  let g_target_label_encoded := Np.full batch_size 1 cover in
  d_on_cover ← call_discriminator true (leaf images) ;
  d_loss_on_cover ← lift (binary_cross_entropy_with_logits d_on_cover d_target_label_cover) ;
  backward d_loss_on_cover ;;
  '(encoded_images, noised_images, decoded_messages) ←
      call_encoder_decoder true images messages ;
  d_on_encoded ← call_discriminator true (detach encoded_images) ;
  d_loss_on_encoded ← lift (binary_cross_entropy_with_logits d_on_encoded d_target_label_encoded) ;
  backward d_loss_on_encoded ;;
  step self_optimizer_discrim ;;
  mret (g_target_label_encoded, d_loss_on_cover, d_loss_on_encoded,
        (encoded_images, noised_images, decoded_messages)).

(** Lines 77-89: the generator phase. *)
Definition generator_phase (images messages g_target_label_encoded : ndarray)
    (encoded_images decoded_messages : Tensor)
  : M (Scalar * Scalar * Scalar * Scalar) :=
  zero_grad self_optimizer_enc_dec ;;
  d_on_encoded_for_enc ← call_discriminator true encoded_images ;
  g_loss_adv ← lift (binary_cross_entropy_with_logits d_on_encoded_for_enc g_target_label_encoded) ;
  g_loss_enc ← lift (mse_loss encoded_images images) ;
  g_loss_dec ← lift (mse_loss decoded_messages messages) ;
  cfg ← gets config ;
  g_loss ← lift (joint_loss cfg g_loss_adv g_loss_enc g_loss_dec) ;
  backward g_loss ;;
  step self_optimizer_enc_dec ;;
  mret (g_loss, g_loss_adv, g_loss_enc, g_loss_dec).

Definition train_on_batch (images messages : Input)
  : M (LossSet * (Tensor * Tensor * Tensor)) :=
  batch_size ← lift (shape_getitem images 0) ;
  train EncDec ;;
  train Discrim ;;
  (* with torch.enable_grad() *)
  '(g_target_label_encoded, d_loss_on_cover, d_loss_on_encoded,
    (encoded_images, noised_images, decoded_messages)) ←
      discriminator_phase batch_size (view images) (view messages) ;
  '(g_loss, g_loss_adv, g_loss_enc, g_loss_dec) ←
      generator_phase (view images) (view messages) g_target_label_encoded
        encoded_images decoded_messages ;
  err ← lift (bitwise_avg_err batch_size (data decoded_messages) messages) ;
  mret (losses g_loss g_loss_enc g_loss_dec err g_loss_adv d_loss_on_cover d_loss_on_encoded,
        (encoded_images, noised_images, decoded_messages)).

Definition validate_on_batch (images messages : Input)
  : M (LossSet * (Tensor * Tensor * Tensor)) :=
  batch_size ← lift (shape_getitem images 0) ;
  eval EncDec ;;
  eval Discrim ;;
  (* with torch.no_grad() *)
  cover ← gets cover_label ;
  encoded ← gets encoded_label ;
  let d_target_label_cover := Np.full batch_size 1 cover in
  let d_target_label_encoded := Np.full batch_size 1 encoded in
  let g_target_label_encoded := Np.full batch_size 1 cover in
  d_on_cover ← call_discriminator false (leaf (view images)) ;
  d_loss_on_cover ← lift (binary_cross_entropy_with_logits d_on_cover d_target_label_cover) ;
  '(encoded_images, noised_images, decoded_messages) ←
      call_encoder_decoder false (view images) (view messages) ;
  d_on_encoded ← call_discriminator false encoded_images ;
  d_loss_on_encoded ← lift (binary_cross_entropy_with_logits d_on_encoded d_target_label_encoded) ;
  d_on_encoded_for_enc ← call_discriminator false encoded_images ;
  g_loss_adv ← lift (binary_cross_entropy_with_logits d_on_encoded_for_enc g_target_label_encoded) ;
  g_loss_enc ← lift (mse_loss encoded_images (view images)) ;
  g_loss_dec ← lift (mse_loss decoded_messages (view messages)) ;
  cfg ← gets config ;
  g_loss ← lift (joint_loss cfg g_loss_adv g_loss_enc g_loss_dec) ;
  err ← lift (bitwise_avg_err batch_size (data decoded_messages) messages) ;
  mret (losses g_loss g_loss_enc g_loss_dec err g_loss_adv d_loss_on_cover d_loss_on_encoded,
        (encoded_images, noised_images, decoded_messages)).

(** [__str__] and [__repr__] *)
Definition UnetModel_str (m : UnetModel) : string :=
  module_str T (encoder_decoder m).

Definition UnetModel_repr (m : UnetModel) : string :=
  module_str T (encoder_decoder m).

(** [torch.optim.Adam(module.parameters())] *)
Definition Adam (o : Owner) (md : Module_) : result Optimizer :=
  match parameters md with
  | [] => Err (ValueError "optimizer got an empty parameter list")
  | _ => Ok (MkOptimizer o (MkAdam 0 [] []))
  end.

(** A freshly constructed sub-model: training mode, no gradients yet. *)
Definition new_module (args : list PyVal) (params : list Q) : Module_ :=
  MkModule args params [] true.

(** [__init__(config, **kwargs)] *)
Definition init (config kwargs : gmap string PyVal) : result UnetModel :=
  dev ← getitem config "device" ;
  device ← torch_device T dev ;
  noise ← getitem config "noise" ;
  noiser ← Noiser T noise ;
  to_device T device ;;
  network_variant ← getitem config "main_command" ;
  message_length ← getitem config "message" ;
  encoder_down_blocks ← getitem config "encoder_blocks" ;
  decoder_blocks ← getitem config "decoder_blocks" ;
  decoder_inner_channels ← getitem config "decoder_channels" ;
  decoder_block_type ← getitem config "decoder_block_type" ;
  let enc_dec_args :=
    [network_variant; noiser; message_length; encoder_down_blocks;
     decoder_blocks; decoder_inner_channels; decoder_block_type] in
  enc_dec_params ← UnetEncoderDecoder T enc_dec_args ;
  to_device T device ;;
  let encoder_decoder := new_module enc_dec_args enc_dec_params in
  inner_channels ← getitem config "discriminator_channels" ;
  block_count ← getitem config "discriminator_blocks" ;
  let discrim_args := [inner_channels; block_count] in
  discrim_params ← Discriminator T discrim_args ;
  to_device T device ;;
  let discriminator := new_module discrim_args discrim_params in
  optimizer_enc_dec ← Adam EncDec encoder_decoder ;
  optimizer_discrim ← Adam Discrim discriminator ;
  mret (MkUnetModel device encoder_decoder discriminator
          optimizer_enc_dec optimizer_discrim config 1 0
          (kwargs !! "tb_logger") []).

(** The keys [__init__] reads from the configuration. *)
Definition init_keys : list string :=
  ["device"; "noise"; "main_command"; "message"; "encoder_blocks";
   "decoder_blocks"; "decoder_channels"; "decoder_block_type";
   "discriminator_channels"; "discriminator_blocks"].

(** What [__init__] sets up and no method changes: each optimizer holds the
    parameters of its own sub-model, and the two labels. *)
Definition constructed (m : UnetModel) : Prop :=
  param_owner (optimizer_enc_dec m) = EncDec
  /\ param_owner (optimizer_discrim m) = Discrim
  /\ cover_label m = 1
  /\ encoded_label m = 0.

(** The collaborators on a well-formed batch, as the specification describes
    them: the discriminator gives one logit per sample, the encoder-decoder
    keeps the shapes of the images and of the messages, and the
    cross-entropy of [n >= 1] logits against a 0/1 label is a finite value
    that is not below zero. *)
Definition well_behaved : Prop :=
  (forall md x, exists y,
      discrim_forward T md x = Ok y /\ has_shape (shape0 x) 1 y)
  /\ (forall md images messages,
        shape0 images = shape0 messages -> Np.wf images -> Np.wf messages ->
        exists enc noi dec,
          enc_dec_forward T md images messages = Ok (enc, noi, dec)
          /\ has_shape (shape0 images) (shape1 images) enc
          /\ has_shape (shape0 messages) (shape1 messages) dec)
  /\ (forall n x label, has_shape n 1 x ->
        exists v, bce_with_logits T x (Np.full n 1 label) = Ok v
                  /\ ((0 < n)%nat -> label = 0 \/ label = 1 ->
                      Float.finite_nonneg v)).

(** An error that a call into a collaborator raised. *)
Definition collaborator_error (e : exn) : Prop :=
  (exists md x, discrim_forward T md x = Err e)
  \/ (exists md x y, enc_dec_forward T md x y = Err e)
  \/ (exists x t, bce_with_logits T x t = Err e).

(** An error of the joint loss: a weight that is missing from the
    configuration, is not a number, or is an [int] beyond 64 bits. *)
Definition weight_error (cfg : gmap string PyVal) (e : exn) : Prop :=
  (cfg !! "adv_loss_weight" = None /\ e = KeyError "adv_loss_weight")
  \/ (cfg !! "enc_loss_weight" = None /\ e = KeyError "enc_loss_weight")
  \/ (exists msg, e = TypeError msg)
  \/ (exists msg, e = OverflowError msg).

(** Two arrays whose shapes do not broadcast: in numpy, or in a loss of the
    framework. *)
Definition broadcast_error (e : exn) : Prop :=
  e = ValueError "operands could not be broadcast together"
  \/ e = RuntimeError "The size of tensor a must match the size of tensor b".

(** The error of [t.shape[i]] on a tensor of too few dimensions. *)
Definition index_error (e : exn) : Prop :=
  e = IndexError "tuple index out of range".

End Orchestrator.

(** ** A small instance of the collaborators

    One-parameter networks over the rationals, with a least-squares
    surrogate for the cross-entropy and a plain gradient step for Adam. *)

Module Toy.

Definition same_shape (a b : ndarray) : bool :=
  (shape0 a =? shape0 b)%nat && (shape1 a =? shape1 b)%nat.

Definition first (p : list Q) : Q := hd 0 p.

(** [encoded = images + w], [noised = encoded], every decoded bit is [w]. *)
Definition enc_dec_forward (md : Module_) (images messages : ndarray)
  : result (ndarray * ndarray * ndarray) :=
  if (shape0 images =? shape0 messages)%nat then
    let w := first (parameters md) in
    let encoded := Np.map (fun x => x + w) images in
    Ok (encoded, encoded, Np.map (fun _ => w) messages)
  else Err (RuntimeError "Sizes of tensors must match except in dimension 1").

Definition osum (a : option ndarray) : Q :=
  match a with
  | Some ct => Np.sum ct
  | None => 0
  end.

Definition enc_dec_vjp (md : Module_) (images messages : ndarray)
    (ct : option ndarray * option ndarray * option ndarray) : list Q :=
  let '(ct_encoded, ct_noised, ct_decoded) := ct in
  [osum ct_encoded + osum ct_noised + osum ct_decoded].

(** One logit per sample: [v] times the sum of the sample. *)
Definition discrim_forward (md : Module_) (x : ndarray) : result ndarray :=
  let v := first (parameters md) in
  Ok (NdArray 1 (List.map (fun r => [v * Np.Qsum r]) (rows x))).

Definition discrim_vjp_params (md : Module_) (x ct : ndarray) : list Q :=
  [Np.Qsum (zip_with (fun r c => Np.Qsum c * Np.Qsum r) (rows x) (rows ct))].

Definition discrim_vjp_input (md : Module_) (x ct : ndarray) : ndarray :=
  let v := first (parameters md) in
  NdArray (shape1 x)
    (zip_with (fun r c => List.map (fun _ => v * Np.Qsum c) r) (rows x) (rows ct)).

Definition sq_diff (x y : Q) : Q := (x - y) * (x - y).

Definition bce_with_logits (input target : ndarray) : result npfloat :=
  if same_shape input target then
    match Np.broadcast2 sq_diff input target with
    | Ok sq => Ok (Np.div (Np.sum sq) (Np.numel sq))
    | Err e => Err e
    end
  else Err (ValueError "Target size must be the same as input size").

Definition sq_vjp (input target : ndarray) (ct : Q) : ndarray :=
  match Np.broadcast2 (fun x y => ct * 2 * (x - y) / Qnat (Np.numel input))
          input target with
  | Ok g => g
  | Err _ => input
  end.

Definition adam_step (st : AdamState) (p g : list Q) : AdamState * list Q :=
  (MkAdam (S (step_count st)) (exp_avg st) (exp_avg_sq st),
   vadd p (List.map (fun x => - (1 # 1000) * x) g)).

Definition torch_device (v : PyVal) : result string :=
  match v with
  | PyStr s => Ok s
  | _ => Err (TypeError "device must be a string")
  end.

Definition value (n : LossNames) : string :=
  match n with
  | unet_loss => "unet_loss"
  | encoder_mse => "encoder_mse"
  | decoder_mse => "dec_mse"
  | bitwise => "bitwise-error"
  | gen_adv_bce => "g_adv_bce"
  | discr_cov_bce => "d_cov_bce"
  | discr_enc_bce => "d_enc_bce"
  end.

Lemma value_distinct (a b : LossNames) : value a = value b -> a = b.
Proof. destruct a, b; simpl; intros H; try reflexivity; discriminate H. Qed.

Definition framework : Collaborators :=
  MkCollaborators
    torch_device
    (fun _ => Ok tt)
    (fun noise => Ok noise)
    (fun _ => Ok [1])
    (fun _ => Ok [1 # 2])
    enc_dec_forward enc_dec_vjp
    discrim_forward discrim_vjp_params discrim_vjp_input
    bce_with_logits sq_vjp sq_vjp
    adam_step
    (fun md => "UnetEncoderDecoder")
    value value_distinct.

(** A complete configuration, and one without the adversarial weight. *)
Definition config_without_weights : gmap string PyVal :=
  list_to_map
    [ ("device", PyStr "cpu"); ("noise", PyOther "[]");
      ("main_command", PyStr "unet-conv"); ("message", PyNum 2);
      ("encoder_blocks", PyNum 4); ("decoder_blocks", PyNum 7);
      ("decoder_channels", PyNum 64); ("decoder_block_type", PyStr "Conv");
      ("discriminator_channels", PyNum 64); ("discriminator_blocks", PyNum 3) ].

Definition config : gmap string PyVal :=
  <["adv_loss_weight" := PyNum (1 # 1000)]>
    (<["enc_loss_weight" := PyNum (7 # 10)]> config_without_weights).

(** A batch of two flattened images with two messages of two bits. *)
Definition images : ndarray := NdArray 3 [[0; 1 # 2; 1]; [1; 0; 1 # 4]].
Definition messages : ndarray := NdArray 2 [[0; 1]; [1; 1]].

(** Decoded messages for them: three bits come out right, one wrong. *)
Definition decoded : ndarray := NdArray 2 [[1 # 4; 3 # 2]; [7 # 10; - (1)]].

(** The object [__init__] builds from a configuration. *)
Definition construct (cfg : gmap string PyVal) : UnetModel :=
  MkUnetModel "cpu"
    (new_module [PyStr "unet-conv"; PyOther "[]"; PyNum 2; PyNum 4; PyNum 7;
                 PyNum 64; PyStr "Conv"] [1])
    (new_module [PyNum 64; PyNum 3] [1 # 2])
    (MkOptimizer EncDec (MkAdam 0 [] []))
    (MkOptimizer Discrim (MkAdam 0 [] []))
    cfg 1 0 None [].

Definition model : UnetModel := construct config.

(** The state a run leaves and the value it returns. *)
Definition no_result : LossSet * (Tensor * Tensor * Tensor) :=
  ([], (leaf images, leaf images, leaf images)).

Definition returned {A} (default : A) (run : UnetModel * result A) : A :=
  match snd run with
  | Ok a => a
  | Err _ => default
  end.

(** A configuration whose adversarial weight is negative. *)
Definition config_negative : gmap string PyVal :=
  <["adv_loss_weight" := PyNum (-2)]>
    (<["enc_loss_weight" := PyNum 1]> config_without_weights).

Definition negative_losses : LossSet :=
  fst (returned no_result
         (train_on_batch framework images messages (construct config_negative))).

(** The object built from the configuration that has no loss weights. *)
Definition unweighted : UnetModel := construct config_without_weights.

Definition failed_train : UnetModel * result (LossSet * (Tensor * Tensor * Tensor)) :=
  train_on_batch framework images messages unweighted.

Definition first_train : UnetModel * result (LossSet * (Tensor * Tensor * Tensor)) :=
  train_on_batch framework images messages model.

Definition trained : UnetModel := fst first_train.

Definition first_validate : UnetModel * result (LossSet * (Tensor * Tensor * Tensor)) :=
  validate_on_batch framework images messages model.

Definition validated : UnetModel := fst first_validate.
Definition validate_losses : LossSet := fst (returned no_result first_validate).
Definition validate_out : Tensor * Tensor * Tensor :=
  snd (returned no_result first_validate).

(** The second call of [train_on_batch], up to the step of the
    discriminator optimizer. *)
Definition second_discriminator_phase
  : UnetModel * result (ndarray * Scalar * Scalar * (Tensor * Tensor * Tensor)) :=
  (train EncDec ;; train Discrim ;;
   discriminator_phase framework (shape0 images) images messages) trained.
Definition train_losses : LossSet := fst (returned no_result first_train).
Definition train_encoded : Tensor := fst (fst (snd (returned no_result first_train))).
Definition train_noised : Tensor := snd (fst (snd (returned no_result first_train))).
Definition train_decoded : Tensor := snd (snd (returned no_result first_train)).

(** A batch of one image whose message comes as a one-dimensional tensor. *)
Definition one_image : ndarray := NdArray 3 [[0; 1 # 2; 1]].
Definition flat_message : Input := Dim1 [0; 1].

Definition flat_train : UnetModel * result (LossSet * (Tensor * Tensor * Tensor)) :=
  train_on_batch framework one_image flat_message model.

(** An object whose encoder-decoder parameter has grown to [2^64] and whose
    discriminator parameter is zero. *)
Definition diverged : UnetModel :=
  MkUnetModel "cpu"
    (new_module [PyStr "unet-conv"; PyOther "[]"; PyNum 2; PyNum 4; PyNum 7;
                 PyNum 64; PyStr "Conv"] [inject_Z (2 ^ 64)])
    (new_module [PyNum 64; PyNum 3] [0])
    (MkOptimizer EncDec (MkAdam 0 [] []))
    (MkOptimizer Discrim (MkAdam 0 [] []))
    config 1 0 None [].

Definition diverged_losses : LossSet :=
  fst (returned no_result (validate_on_batch framework images messages diverged)).

(** A configuration whose adversarial weight is an [int] of 70 bits. *)
Definition config_big_int : gmap string PyVal :=
  <["adv_loss_weight" := PyBigInt false (2 ^ 70 - 2 ^ 64)]>
    (<["enc_loss_weight" := PyNum 1]> config_without_weights).

End Toy.

(** ** Further vocabulary for the properties of the methods *)

(** An error that one of the constructors called by [__init__] raised. *)
Definition constructor_error (T : Collaborators) (e : exn) : Prop :=
  (exists v, torch_device T v = Err e)
  \/ (exists d, to_device T d = Err e)
  \/ (exists v, Noiser T v = Err e)
  \/ (exists args, UnetEncoderDecoder T args = Err e)
  \/ (exists args, Discriminator T args = Err e).

(** The number of positions at which two rows, and two lists of rows,
    differ. *)
Fixpoint row_mismatches (r m : list Q) : nat :=
  match r, m with
  | x :: r', y :: m' => (if Qeq_bool x y then 0 else 1) + row_mismatches r' m'
  | _, _ => 0
  end.

Fixpoint mismatches (ra rm : list (list Q)) : nat :=
  match ra, rm with
  | r :: ra', m :: rm' => row_mismatches r m + mismatches ra' rm'
  | _, _ => 0
  end.

(** The object with the modes of its sub-models replaced. *)
Definition with_modes (enc_dec_mode discrim_mode : bool) (m : UnetModel) : UnetModel :=
  set_module EncDec (set_training enc_dec_mode (encoder_decoder m))
    (set_module Discrim (set_training discrim_mode (discriminator m)) m).
(** * Facts about the array operations *)

Section ArrayFacts.

Lemma stretch_id {A} (n : nat) (l : list A) : length l = n -> stretch n l = l.
Proof. intros <-. unfold stretch. now rewrite Nat.eqb_refl. Qed.

Lemma bdim_same (n : nat) : bdim n n = Some n.
Proof. unfold bdim. now rewrite Nat.eqb_refl. Qed.

Lemma zip_with_stretch_rows (f : Q -> Q -> Q) (l : nat) (ra rb : list (list Q)) :
  Forall (fun r => length r = l) ra ->
  Forall (fun r => length r = l) rb ->
  zip_with (fun r s => zip_with f (stretch l r) (stretch l s)) ra rb
  = zip_with (zip_with f) ra rb.
Proof.
  intros Ha. revert rb. induction Ha as [|r ra Hr Ha IH]; intros rb Hb; [done|].
  destruct Hb as [|s rb Hs Hb]; [done|]. simpl.
  rewrite !stretch_id by done. f_equal. by apply IH.
Qed.

Lemma broadcast2_same_shape (f : Q -> Q -> Q) (n l : nat) (a b : ndarray) :
  has_shape n l a -> has_shape n l b ->
  broadcast2 f a b = Ok (NdArray l (zip_with (zip_with f) (rows a) (rows b))).
Proof.
  intros (Ha0 & Ha1 & Hwa) (Hb0 & Hb1 & Hwb). unfold broadcast2.
  rewrite Ha0, Hb0, Ha1, Hb1, !bdim_same.
  unfold shape0 in Ha0, Hb0. rewrite !stretch_id by done.
  unfold wf in *. rewrite Ha1 in Hwa. rewrite Hb1 in Hwb.
  by rewrite zip_with_stretch_rows.
Qed.

Lemma map_has_shape (f : Q -> Q) (n l : nat) (a : ndarray) :
  has_shape n l a -> has_shape n l (Np.map f a).
Proof.
  intros (H0 & H1 & Hw). unfold has_shape, shape0, wf in *. simpl.
  rewrite length_map. repeat split; [done..|].
  apply Forall_map. eapply Forall_impl; [exact Hw|].
  intros r Hr. simpl. by rewrite length_map.
Qed.

Lemma full_has_shape (n l : nat) (v : Q) : has_shape n l (full n l v).
Proof.
  unfold has_shape, shape0, wf, full. simpl. rewrite repeat_length.
  repeat split. apply Forall_forall. intros r Hr.
  apply list_elem_of_In, repeat_spec in Hr. subst r. apply repeat_length.
Qed.

(** *** Rounding and clipping *)

Lemma round1_integer (q : Q) :
  exists z, round1 q = inject_Z z /\ (Qfloor q <= z <= Qfloor q + 1)%Z.
Proof.
  unfold round1. destruct (q - inject_Z (Qfloor q) ?= 1 # 2).
  - destruct (Z.even (Qfloor q)); eexists; split; try reflexivity; lia.
  - eexists; split; [reflexivity|lia].
  - eexists; split; [reflexivity|lia].
Qed.

Lemma round1_inject_Z (z : Z) : round1 (inject_Z z) = inject_Z z.
Proof.
  unfold round1. rewrite Qfloor_Z.
  assert (H : (inject_Z z - inject_Z z ?= 1 # 2) = Lt).
  { rewrite <- Qlt_alt. lra. }
  by rewrite H.
Qed.

Lemma clip1_unit_inject_Z (z : Z) :
  clip1 0 1 (inject_Z z) = inject_Z (Z.min (Z.max z 0) 1).
Proof.
  unfold clip1, Qle_bool, inject_Z. simpl.
  rewrite !Z.mul_1_r.
  destruct (Z.leb_spec 0 z) as [H0|H0].
  - simpl. rewrite Z.mul_1_r. destruct (Z.leb_spec z 1) as [H1|H1].
    + f_equal. lia.
    + f_equal. lia.
  - simpl. f_equal. lia.
Qed.

Lemma clip1_unit_cases (q : Q) :
  (q < 0 /\ clip1 0 1 q = 0) \/ (1 < q /\ clip1 0 1 q = 1)
  \/ (0 <= q <= 1 /\ clip1 0 1 q = q).
Proof.
  unfold clip1.
  destruct (Qle_bool 0 q) eqn:H0.
  - apply Qle_bool_iff in H0. destruct (Qle_bool q 1) eqn:H1.
    + apply Qle_bool_iff in H1. right; right. done.
    + right; left. split; [|done].
      apply Qnot_le_lt. intros H. apply Qle_bool_iff in H. congruence.
  - left. split; [|done].
    apply Qnot_le_lt. intros H. apply Qle_bool_iff in H. congruence.
Qed.

Lemma Qfloor_neg (q : Q) : q < 0 -> (Qfloor q <= -1)%Z.
Proof.
  intros H. assert (Hf := Qfloor_le q).
  assert (Hlt : inject_Z (Qfloor q) < inject_Z 0) by (change (inject_Z 0) with 0; lra).
  rewrite <- Zlt_Qlt in Hlt. lia.
Qed.

Lemma Qfloor_gt1 (q : Q) : 1 < q -> (1 <= Qfloor q)%Z.
Proof.
  intros H. change 1%Z with (Qfloor (inject_Z 1)) at 1.
  apply Qfloor_resp_le. change (inject_Z 1) with 1. lra.
Qed.

Lemma Qfloor_unit (q : Q) : 0 <= q -> q < 1 -> Qfloor q = 0%Z.
Proof.
  intros H0 H1.
  assert (Hlo : (0 <= Qfloor q)%Z).
  { change 0%Z with (Qfloor (inject_Z 0)) at 1. by apply Qfloor_resp_le. }
  assert (Hhi : inject_Z (Qfloor q) < inject_Z 1).
  { eapply Qle_lt_trans; [apply Qfloor_le|]. change (inject_Z 1) with 1. lra. }
  rewrite <- Zlt_Qlt in Hhi. lia.
Qed.

Lemma round1_unit (q : Q) :
  0 <= q <= 1 -> round1 q = 0 \/ round1 q = 1.
Proof.
  intros [H0 H1]. destruct (Qlt_le_dec q 1) as [Hlt|Hge].
  - unfold round1. rewrite (Qfloor_unit q H0 Hlt). simpl.
    destruct (q - inject_Z 0 ?= 1 # 2); auto.
  - assert (Hf : Qfloor q = 1%Z).
    { apply Z.le_antisymm.
      - assert (Hhi : inject_Z (Qfloor q) < inject_Z 2).
        { eapply Qle_lt_trans; [apply Qfloor_le|].
          change (inject_Z 2) with 2. lra. }
        rewrite <- Zlt_Qlt in Hhi. lia.
      - change 1%Z with (Qfloor (inject_Z 1)) at 1. by apply Qfloor_resp_le. }
    unfold round1. rewrite Hf.
    assert (Hc : (q - inject_Z 1 ?= 1 # 2) = Lt).
    { rewrite <- Qlt_alt. change (inject_Z 1) with 1. lra. }
    rewrite Hc. auto.
Qed.

(** Rounding then clipping to [0,1] is clipping then rounding. *)
Lemma clip_round_commute1 (q : Q) :
  clip1 0 1 (round1 q) = round1 (clip1 0 1 q).
Proof.
  destruct (clip1_unit_cases q) as [[Hq ->]|[[Hq ->]|[Hq ->]]].
  - destruct (round1_integer q) as (z & -> & Hz).
    assert (Hf := Qfloor_neg q Hq).
    rewrite clip1_unit_inject_Z. change 0 with (inject_Z 0).
    rewrite round1_inject_Z. f_equal. lia.
  - destruct (round1_integer q) as (z & -> & Hz).
    assert (Hf := Qfloor_gt1 q Hq).
    rewrite clip1_unit_inject_Z. change 1 with (inject_Z 1).
    rewrite round1_inject_Z. f_equal. lia.
  - destruct (round1_unit q Hq) as [-> | ->]; reflexivity.
Qed.

(** Ties go to the even integer; values outside [0,1] are clipped. *)
Example round1_half : round1 (1 # 2) = 0 /\ round1 (3 # 2) = 2 /\ round1 (5 # 2) = 2.
Proof. repeat split. Qed.

Example decoded_rounded_sample :
  decoded_rounded Toy.decoded = NdArray 2 [[0; 1]; [1; 0]].
Proof. reflexivity. Qed.

Lemma decoded_rounded_bit (q : Q) :
  clip1 0 1 (round1 q) = 0 \/ clip1 0 1 (round1 q) = 1.
Proof.
  destruct (round1_integer q) as (z & -> & _).
  rewrite clip1_unit_inject_Z.
  destruct (Z.min_spec (Z.max z 0) 1) as [[H ->]|[H ->]]; [|by right].
  left. replace (Z.max z 0) with 0%Z by lia. reflexivity.
Qed.

End ArrayFacts.

(** *** Sums of element-wise distances *)

Section SumFacts.

Lemma Qnat_S (n : nat) : Qnat (S n) == Qnat n + 1.
Proof. unfold Qnat. rewrite Nat2Z.inj_succ, <- Z.add_1_r, inject_Z_plus. reflexivity. Qed.

Lemma Qnat_add (n m : nat) : Qnat (n + m) == Qnat n + Qnat m.
Proof. unfold Qnat. rewrite Nat2Z.inj_add, inject_Z_plus. reflexivity. Qed.

Lemma Qnat_pos (n : nat) : (0 < n)%nat -> 0 < Qnat n.
Proof.
  intros H. unfold Qnat. change 0 with (inject_Z 0). rewrite <- Zlt_Qlt. lia.
Qed.

Lemma row_distance_bounds (lo hi : Q) (r m : list Q) :
  Forall2 (fun x y => lo <= Qabs (x - y) <= hi) r m ->
  lo * Qnat (length r) <= Qsum (List.map Qabs (zip_with Qminus r m))
  /\ Qsum (List.map Qabs (zip_with Qminus r m)) <= hi * Qnat (length r).
Proof.
  induction 1 as [|x y r m [Hlo Hhi] _ [IHlo IHhi]].
  - simpl. change (Qnat 0) with 0. lra.
  - change (Qsum (List.map Qabs (zip_with Qminus (x :: r) (y :: m))))
      with (Qabs (x - y) + Qsum (List.map Qabs (zip_with Qminus r m))).
    change (length (x :: r)) with (S (length r)).
    rewrite Qnat_S. nra.
Qed.

Lemma rows_distance_bounds (lo hi : Q) (l : nat) (ra rm : list (list Q)) :
  Forall2 (Forall2 (fun x y => lo <= Qabs (x - y) <= hi)) ra rm ->
  Forall (fun r => length r = l) ra ->
  lo * Qnat (length ra * l)
  <= Qsum (List.map Qsum (List.map (List.map Qabs) (zip_with (zip_with Qminus) ra rm)))
  /\ Qsum (List.map Qsum (List.map (List.map Qabs) (zip_with (zip_with Qminus) ra rm)))
     <= hi * Qnat (length ra * l).
Proof.
  induction 1 as [|r m ra rm Hrow _ IH]; intros Hlen.
  - simpl. change (Qnat 0) with 0. lra.
  - inversion Hlen as [|? ? Hr Hlen']; subst.
    destruct (IH Hlen') as [IHlo IHhi].
    destruct (row_distance_bounds lo hi r m Hrow) as [Rlo Rhi].
    change (Qsum (List.map Qsum (List.map (List.map Qabs)
              (zip_with (zip_with Qminus) (r :: ra) (m :: rm)))))
      with (Qsum (List.map Qabs (zip_with Qminus r m))
            + Qsum (List.map Qsum (List.map (List.map Qabs)
                      (zip_with (zip_with Qminus) ra rm)))).
    change (length (r :: ra) * length r)%nat
      with (length r + length ra * length r)%nat.
    rewrite Qnat_add. nra.
Qed.

Lemma zip_with_distance (ra rm : list (list Q)) :
  List.map (List.map Qabs) (zip_with (zip_with Qminus) ra rm)
  = zip_with (zip_with (fun d m => Qabs (d - m))) ra rm.
Proof.
  revert rm. induction ra as [|r ra IH]; intros [|m rm]; simpl; [done..|].
  f_equal; [|apply IH].
  clear. revert m. induction r as [|x r IH]; intros [|y m]; simpl; [done..|].
  f_equal. apply IH.
Qed.

Lemma entrywise_impl (P R : Q -> Q -> Prop) (a b : ndarray) :
  (forall x y, P x y -> R x y) -> entrywise P a b -> entrywise R a b.
Proof.
  intros HPR H. unfold entrywise in *.
  eapply Forall2_impl; [exact H|]. intros r m Hrm.
  eapply Forall2_impl; [exact Hrm|]. exact HPR.
Qed.

(** A rounded bit against a true bit: the distance is 0 or 1. *)
Lemma bit_distance (d m : Q) :
  (d = 0 \/ d = 1) -> (m == 0 \/ m == 1) -> 0 <= Qabs (d - m) <= 1.
Proof.
  intros [-> | ->] [Hm | Hm]; rewrite Hm; split; discriminate.
Qed.

Lemma entrywise_bits (n l : nat) (decoded messages : ndarray) :
  has_shape n l decoded -> has_shape n l messages -> binary messages ->
  entrywise (fun x y => 0 <= Qabs (x - y) <= 1) (decoded_rounded decoded) messages.
Proof.
  intros (Hd0 & Hd1 & Hdw) (Hm0 & Hm1 & Hmw) Hbin.
  unfold entrywise, decoded_rounded, Np.clip, Np.round, Np.map. simpl.
  unfold shape0, wf, binary in *. rewrite Hd1 in Hdw. rewrite Hm1 in Hmw.
  rewrite List.map_map.
  assert (Hlen : length (rows decoded) = length (rows messages)) by congruence.
  clear Hd0 Hm0 Hd1 Hm1.
  revert Hlen Hdw Hmw Hbin.
  generalize (rows decoded) (rows messages).
  induction l0 as [|r ra IH]; intros [|m rm] Hlen Hdw Hmw Hbin;
    simpl in Hlen; try discriminate; constructor.
  - inversion Hdw as [|? ? Hr Hdw']; inversion Hmw as [|? ? Hmr Hmw'];
      inversion Hbin as [|? ? Hb Hbin']; subst.
    rewrite List.map_map.
    assert (Hrl : length r = length m) by congruence.
    clear - Hrl Hb. revert m Hrl Hb.
    induction r as [|x r IHr]; intros [|y m] Hrl Hb; simpl in Hrl;
      try discriminate; constructor.
    + inversion Hb; subst. apply bit_distance; [apply decoded_rounded_bit|done].
    + inversion Hb; subst. apply IHr; [lia|done].
  - inversion Hdw; inversion Hmw; inversion Hbin; subst.
    apply IH; [lia|done..].
Qed.

End SumFacts.

Section BitwiseError.

Lemma decoded_rounded_spec (decoded : ndarray) :
  decoded_rounded decoded = spec_rounded decoded.
Proof.
  unfold decoded_rounded, spec_rounded, Np.clip, Np.round, Np.map. simpl.
  f_equal. rewrite !List.map_map. apply List.map_ext. intros r.
  rewrite !List.map_map. apply List.map_ext. intros q.
  apply clip_round_commute1.
Qed.

Lemma entrywise_binary (P : Q -> Q -> Prop) (a b : ndarray) :
  entrywise P a b -> binary b ->
  entrywise (fun x y => P x y /\ (y == 0 \/ y == 1)) a b.
Proof.
  unfold entrywise, binary. generalize (rows a) (rows b).
  induction 1 as [|r m ra rm Hrow _ IH]; intros Hbin; constructor.
  - inversion Hbin as [|? ? Hb _]; subst. clear - Hrow Hb.
    induction Hrow; constructor; inversion Hb; subst; auto.
  - inversion Hbin; subst. auto.
Qed.

Lemma bitwise_avg_err_value (n l : nat) (decoded messages : ndarray) :
  (0 < n * l)%nat ->
  has_shape n l decoded -> has_shape n l messages ->
  bitwise_avg_err n decoded messages
  = Ok (Fin (spec_bitwise_error n l decoded messages)).
Proof.
  intros Hpos Hd Hm. unfold bitwise_avg_err, Np.sub.
  change (view messages) with messages.
  change (shape_getitem messages 1) with (Ok (shape1 messages)).
  assert (Hr : has_shape n l (decoded_rounded decoded)).
  { unfold decoded_rounded, Np.clip, Np.round. by do 2 apply map_has_shape. }
  rewrite (broadcast2_same_shape Qminus n l _ _ Hr Hm).
  destruct Hm as (_ & -> & _).
  unfold Np.div. destruct (n * l)%nat as [|k] eqn:Hk; [lia|].
  unfold spec_bitwise_error, Np.sum, Np.abs, Qnat.
  rewrite <- decoded_rounded_spec, <- zip_with_distance, Hk. reflexivity.
Qed.

Lemma spec_bitwise_error_bounds (lo hi : Q) (n l : nat) (decoded messages : ndarray) :
  (0 < n * l)%nat ->
  has_shape n l decoded ->
  entrywise (fun x y => lo <= Qabs (x - y) <= hi) (decoded_rounded decoded) messages ->
  lo <= spec_bitwise_error n l decoded messages <= hi.
Proof.
  intros Hpos (Hd0 & Hd1 & Hdw) He.
  assert (Hq := Qnat_pos _ Hpos).
  unfold spec_bitwise_error. rewrite <- decoded_rounded_spec, <- zip_with_distance.
  unfold entrywise in He.
  destruct (rows_distance_bounds lo hi l _ _ He) as [Hlo Hhi].
  { unfold decoded_rounded, Np.clip, Np.round, Np.map. simpl.
    apply Forall_map, Forall_map. unfold wf in Hdw. rewrite Hd1 in Hdw.
    eapply Forall_impl; [exact Hdw|]. intros r Hr. simpl.
    by rewrite !length_map. }
  assert (Hlen : length (rows (decoded_rounded decoded)) = n).
  { unfold decoded_rounded, Np.clip, Np.round, Np.map. simpl.
    by rewrite !length_map. }
  rewrite Hlen in Hlo, Hhi. split.
  - apply Qle_shift_div_l; [done|]. exact Hlo.
  - apply Qle_shift_div_r; [done|]. exact Hhi.
Qed.

Lemma distance_equal (x y : Q) : x == y -> 0 <= Qabs (x - y) <= 0.
Proof.
  intros H. assert (E : x - y == 0) by lra. rewrite E. split; discriminate.
Qed.

Lemma distance_flipped (x y : Q) :
  x == 1 - y /\ (y == 0 \/ y == 1) -> 1 <= Qabs (x - y) <= 1.
Proof.
  intros [Hx [Hy | Hy]]; rewrite Hx, Hy; split; discriminate.
Qed.

End BitwiseError.

(** C4.  On a batch of [n >= 1] messages of [l >= 1] true bits, with decoded
    messages of the same shape, the bitwise error computed by the code is the
    sum of the absolute differences between the decoded messages, clamped to
    [0,1] and rounded, and the true bits, over [n * l]; it lies in [0,1], is
    0 when the rounded decoded bits are the true bits and 1 when every bit is
    flipped. *)
Theorem bitwise_error_metric (n l : nat) (decoded messages : ndarray) :
  (0 < n)%nat -> (0 < l)%nat ->
  has_shape n l decoded -> has_shape n l messages -> binary messages ->
  exists e : Q,
    bitwise_avg_err n decoded messages = Ok (Fin e)
    /\ e = spec_bitwise_error n l decoded messages
    /\ 0 <= e <= 1
    /\ (entrywise Qeq (decoded_rounded decoded) messages -> e == 0)
    /\ (entrywise (fun d m => d == 1 - m) (decoded_rounded decoded) messages
        -> e == 1).
Proof.
  intros Hn Hl Hd Hm Hbin.
  assert (Hpos : (0 < n * l)%nat) by lia.
  exists (spec_bitwise_error n l decoded messages).
  split; [by apply bitwise_avg_err_value|]. split; [done|].
  split; [|split].
  - apply (spec_bitwise_error_bounds 0 1 n l); [done..|].
    by apply (entrywise_bits n l).
  - intros Heq. apply Qle_antisym;
      apply (spec_bitwise_error_bounds 0 0 n l decoded messages Hpos Hd);
      exact (entrywise_impl _ _ _ _ distance_equal Heq).
  - intros Hflip. apply Qle_antisym;
      apply (spec_bitwise_error_bounds 1 1 n l decoded messages Hpos Hd);
      exact (entrywise_impl _ _ _ _ distance_flipped
               (entrywise_binary _ _ _ Hflip Hbin)).
Qed.

(** * Runs of the methods *)

#[local] Arguments Np.broadcast2 : simpl never.
#[local] Arguments Np.full : simpl never.
#[local] Arguments Np.div : simpl never.
#[local] Arguments Np.sum : simpl never.
#[local] Arguments bitwise_avg_err : simpl never.
#[local] Arguments joint_loss : simpl never.
#[local] Arguments losses : simpl never.
#[local] Arguments vadd : simpl never.

Lemma bind_Ok {A B} (c : M A) (k : A -> M B) (m m' : UnetModel) (b : B) :
  (c ≫= k) m = (m', Ok b) ->
  exists a m1, c m = (m1, Ok a) /\ k a m1 = (m', Ok b).
Proof.
  unfold mbind, M_bind. destruct (c m) as [m1 [a|e]]; [eauto|discriminate].
Qed.

Lemma bind_Err {A B} (c : M A) (k : A -> M B) (m m' : UnetModel) (e : exn) :
  (c ≫= k) m = (m', Err e) ->
  c m = (m', Err e) \/ exists a m1, c m = (m1, Ok a) /\ k a m1 = (m', Err e).
Proof.
  unfold mbind, M_bind. destruct (c m) as [m1 [a|e']]; [eauto|].
  intros [= <- <-]. by left.
Qed.

(** The joint loss, when it is computed. *)
Lemma joint_loss_Ok (cfg : gmap string PyVal) (a e d g : Scalar) :
  joint_loss cfg a e d = Ok g ->
  exists w_adv w_enc w_dec,
    cfg !! "adv_loss_weight" = Some (PyNum w_adv)
    /\ cfg !! "enc_loss_weight" = Some (PyNum w_enc)
    /\ get cfg "dec_loss_weight" (PyNum 1) = PyNum w_dec
    /\ g = plus (plus (scale w_adv a) (scale w_enc e)) (scale w_dec d).
Proof.
  unfold joint_loss, getitem.
  destruct (cfg !! "adv_loss_weight") as [[w_adv| | |]|]; try discriminate.
  destruct (cfg !! "enc_loss_weight") as [[w_enc| | |]|]; try discriminate.
  destruct (get cfg "dec_loss_weight" (PyNum 1)) as [w_dec| | |]; try discriminate.
  cbn. intros [= <-]. by exists w_adv, w_enc, w_dec.
Qed.

Lemma joint_loss_intro (cfg : gmap string PyVal) (a e d : Scalar) (w_adv w_enc w_dec : Q) :
  cfg !! "adv_loss_weight" = Some (PyNum w_adv) ->
  cfg !! "enc_loss_weight" = Some (PyNum w_enc) ->
  get cfg "dec_loss_weight" (PyNum 1) = PyNum w_dec ->
  joint_loss cfg a e d = Ok (plus (plus (scale w_adv a) (scale w_enc e)) (scale w_dec d)).
Proof.
  intros Ha He Hd. unfold joint_loss, getitem. by rewrite Ha, He, Hd.
Qed.

Lemma joint_loss_Err (cfg : gmap string PyVal) (a e d : Scalar) (x : exn) :
  joint_loss cfg a e d = Err x -> weight_error cfg x.
Proof.
  unfold joint_loss, getitem, weight_error.
  destruct (cfg !! "adv_loss_weight") as [[w_adv| | |]|]; cbn;
    [|intros [= <-]; eauto 7..].
  destruct (cfg !! "enc_loss_weight") as [[w_enc| | |]|]; cbn;
    [|intros [= <-]; eauto 7..].
  destruct (get cfg "dec_loss_weight" (PyNum 1)) as [w_dec| | |]; cbn;
    [discriminate|intros [= <-]; eauto 7..].
Qed.

Lemma joint_loss_missing_adv (cfg : gmap string PyVal) (a e d : Scalar) :
  cfg !! "adv_loss_weight" = None ->
  joint_loss cfg a e d = Err (KeyError "adv_loss_weight").
Proof. intros H. unfold joint_loss, getitem. by rewrite H. Qed.

Lemma broadcast2_Err (f : Q -> Q -> Q) (a b : ndarray) (x : exn) :
  Np.broadcast2 f a b = Err x -> broadcast_error x.
Proof.
  unfold Np.broadcast2, broadcast_error.
  destruct (bdim (shape0 a) (shape0 b)), (bdim (shape1 a) (shape1 b));
    intros [= <-]; by left.
Qed.

(** The metric raises when the subtraction does not broadcast, or else when
    [messages] has no second dimension. *)
Lemma bitwise_avg_err_raises (n : nat) (decoded : ndarray) (messages : Input) (x : exn) :
  bitwise_avg_err n decoded messages = Err x ->
  broadcast_error x \/ (index_error x /\ shape messages !! 1%nat = None).
Proof.
  unfold bitwise_avg_err, Np.sub, shape_getitem.
  destruct (Np.broadcast2 Qminus (decoded_rounded decoded) (view messages)) eqn:E.
  - destruct (shape messages !! 1%nat); [discriminate|].
    intros [= <-]. by right.
  - intros [= <-]. left. by eapply broadcast2_Err.
Qed.

Lemma bitwise_avg_err_Err (n : nat) (decoded messages : ndarray) (x : exn) :
  bitwise_avg_err n decoded messages = Err x -> broadcast_error x.
Proof.
  intros H. by apply bitwise_avg_err_raises in H as [H | [_ H]].
Qed.

(** The error of a mean-squared-error loss on shapes that do not broadcast. *)
Lemma mse_loss_broadcast_error :
  broadcast_error
    (RuntimeError "The size of tensor a must match the size of tensor b").
Proof. by right. Qed.

(** Destructs the call a stuck result is waiting for. *)
Ltac case_call H :=
  repeat match type of H with
    | context [match ?x with Ok _ => _ | Err _ => _ end] =>
        lazymatch x with
        | context [match _ with Ok _ => _ | Err _ => _ end] => fail
        | _ => destruct x as [?|?] eqn:?; try discriminate H
        end
    | context [let '(_, _) := ?x in _] => is_var x; destruct x
    | context [adam_step ?T ?s ?p ?g] =>
        destruct (adam_step T s p g) as [? ?] eqn:?; cbn in H
    end.

Ltac unfold_statement H :=
  unfold train, eval, zero_grad, step, backward, modify, gets, lift,
    call_discriminator, call_encoder_decoder, binary_cross_entropy_with_logits,
    mse_loss, mret, M_ret in H;
  cbn in H.

Ltac invert_joint_loss :=
  repeat match goal with
    | Hj : joint_loss _ _ _ _ = Ok _ |- _ =>
        apply joint_loss_Ok in Hj; destruct Hj as (? & ? & ? & ? & ? & ? & ->)
    end.

(** Runs a successful statement sequence [H : c m = (m', Ok r)] on an
    explicit object [m] to its end: every call into a collaborator leaves
    its equation in the context, the final state and the result are
    substituted. *)
Ltac run H :=
  try unfold train_on_batch, validate_on_batch, discriminator_phase,
        generator_phase in H;
  lazymatch type of H with
  | (_ ≫= _) _ = _ =>
      let H1 := fresh "Hcall" in
      apply bind_Ok in H; destruct H as (? & ? & H1 & H);
      run H1; cbn beta iota in H; run H
  | _ =>
      unfold_statement H; case_call H; cbn in H; simplify_eq;
      invert_joint_loss
  end.

(** A statement that raised: the call that failed leaves its equation. *)
Ltac raised H :=
  unfold_statement H; case_call H; cbn in H; simplify_eq.

(** Runs a statement sequence [H : c m = (m', Err e)] on an explicit object
    up to the statement that raised; [fin] closes the goal there. *)
Ltac run_raise H fin :=
  try unfold train_on_batch, validate_on_batch, discriminator_phase,
        generator_phase in H;
  lazymatch type of H with
  | (_ ≫= _) _ = _ =>
      let H1 := fresh "Hcall" in
      apply bind_Err in H; destruct H as [H | (? & ? & H1 & H)];
      [ run_raise H fin
      | run H1; cbn beta iota in H; run_raise H fin ]
  | _ => raised H; fin
  end.

Ltac open_object m :=
  destruct m as [? [? ? ? ?] [? ? ? ?] [? ?] [? ?] ? ? ? ? ?].

(** Opens an object into its attributes; the owners of its optimizers and
    its labels are the constructed ones. *)
Ltac open_model m Hc :=
  destruct m as [? [? ? ? ?] [? ? ? ?] [? ?] [? ?] ? ? ? ? ?];
  unfold constructed in Hc; cbn in Hc;
  destruct Hc as (? & ? & ? & ?); subst.

Section Protocol.

Variable T : Collaborators.

Lemma vadd_nil_r (g : list Q) : vadd g [] = g.
Proof. by destruct g. Qed.

Lemma value_neq (a b : LossNames) :
  a <> b -> String.eqb (value T a) (value T b) = false.
Proof.
  intros Hab. apply String.eqb_neq. intros H. by apply value_inj in H.
Qed.

(** The seven entries of the loss mapping, in the order they are written. *)
Lemma losses_entries (g e d a c f : Scalar) (b : npfloat) :
  losses T g e d b a c f
  = [ (value T unet_loss, item g); (value T encoder_mse, item e);
      (value T decoder_mse, item d); (value T bitwise, b);
      (value T gen_adv_bce, item a); (value T discr_cov_bce, item c);
      (value T discr_enc_bce, item f) ].
Proof.
  unfold losses, OrderedDict. cbn.
  repeat (rewrite !value_neq by discriminate; cbn). reflexivity.
Qed.

End Protocol.

Section TrainProtocol.

Variable T : Collaborators.

(** C1.  A call of [train_on_batch] that returns has made these calls, in
    this order: both sub-models to training mode; the discriminator phase
    (gradients of the discriminator cleared, the discriminator run on the
    images and its cross-entropy against the cover label back-propagated,
    the encoder-decoder run once, the discriminator run on a detached copy
    of the encoded images and its cross-entropy against the encoded label
    back-propagated, the discriminator optimizer stepped); the generator
    phase (gradients of the encoder-decoder cleared, the stepped
    discriminator run on the encoded images themselves against the cover
    label, the joint loss back-propagated, the encoder-decoder optimizer
    stepped).  The encoded images of both phases are the ones the single
    encoder-decoder pass returned. *)
Theorem train_on_batch_protocol (images messages : ndarray) (m m' : UnetModel)
    (ls : LossSet) (enc noi dec : Tensor) :
  constructed m ->
  train_on_batch T images messages m = (m', Ok (ls, (enc, noi, dec))) ->
  exists (md_cov md_fake md_gen md_ed : Module_) (y_cov y_fake y_gen : ndarray)
         (g e_mse d_mse err g_adv d_cov d_enc : npfloat),
    let n := shape0 images in
    calls m' = calls m ++
      [ EvTrain EncDec; EvTrain Discrim;
        EvZeroGrad Discrim;
        EvForward Discrim [images] false;
        EvBackward d_cov;
        EvForward EncDec [images; messages] false;
        EvForward Discrim [data enc] false;
        EvBackward d_enc;
        EvStep Discrim;
        EvZeroGrad EncDec;
        EvForward Discrim [data enc] true;
        EvBackward g;
        EvStep EncDec ]
    /\ ls = [ (value T unet_loss, g); (value T encoder_mse, e_mse);
              (value T decoder_mse, d_mse); (value T bitwise, err);
              (value T gen_adv_bce, g_adv); (value T discr_cov_bce, d_cov);
              (value T discr_enc_bce, d_enc) ]
    /\ parameters md_cov = parameters (discriminator m)
    /\ discrim_forward T md_cov images = Ok y_cov
    /\ bce_with_logits T y_cov (Np.full n 1 1) = Ok d_cov
    /\ parameters md_ed = parameters (encoder_decoder m)
    /\ enc_dec_forward T md_ed images messages = Ok (data enc, data noi, data dec)
    /\ requires_grad enc = true
    /\ parameters md_fake = parameters (discriminator m)
    /\ discrim_forward T md_fake (data enc) = Ok y_fake
    /\ bce_with_logits T y_fake (Np.full n 1 0) = Ok d_enc
    /\ parameters md_gen = parameters (discriminator m')
    /\ discrim_forward T md_gen (data enc) = Ok y_gen
    /\ bce_with_logits T y_gen (Np.full n 1 1) = Ok g_adv.
Proof.
  intros Hc H. open_model m Hc.
  run H.
  rewrite losses_entries.
  lazymatch goal with
  | Hc : discrim_forward T ?mdc images = Ok ?yc,
    Bc : bce_with_logits T ?yc (Np.full _ 1 1) = Ok _,
    He : enc_dec_forward T ?mde images messages = Ok (?e, _, _),
    Hf : discrim_forward T ?mdf ?e = Ok ?yf,
    Bf : bce_with_logits T ?yf (Np.full _ 1 0) = Ok _,
    Hg : discrim_forward T ?mdg ?e = Ok ?yg,
    Bg : bce_with_logits T ?yg (Np.full _ 1 1) = Ok _ |- _ =>
      exists mdc, mdf, mdg, mde, yc, yf, yg
  end.
  do 7 eexists. cbn.
  split; [rewrite <- !app_assoc; reflexivity|].
  split; [reflexivity|].
  repeat split; first [eassumption | reflexivity].
Qed.

End TrainProtocol.

Lemma toy_model_constructed : constructed Toy.model.
Proof. repeat split. Defined.

Lemma toy_first_train :
  train_on_batch Toy.framework Toy.images Toy.messages Toy.model
  = (Toy.trained,
     Ok (Toy.train_losses, (Toy.train_encoded, Toy.train_noised, Toy.train_decoded))).
Proof. vm_compute. reflexivity. Defined.

Lemma train_on_batch_protocol_witness :
  constructed Toy.model
  /\ train_on_batch Toy.framework Toy.images Toy.messages Toy.model
     = (Toy.trained,
        Ok (Toy.train_losses, (Toy.train_encoded, Toy.train_noised, Toy.train_decoded)))
  /\ exists d_cov d_enc g,
       calls Toy.trained =
       [ EvTrain EncDec; EvTrain Discrim;
         EvZeroGrad Discrim;
         EvForward Discrim [Toy.images] false;
         EvBackward d_cov;
         EvForward EncDec [Toy.images; Toy.messages] false;
         EvForward Discrim [data Toy.train_encoded] false;
         EvBackward d_enc;
         EvStep Discrim;
         EvZeroGrad EncDec;
         EvForward Discrim [data Toy.train_encoded] true;
         EvBackward g;
         EvStep EncDec ].
Proof.
  split; [exact toy_model_constructed|]. split; [exact toy_first_train|].
  destruct (train_on_batch_protocol Toy.framework Toy.images Toy.messages
              Toy.model _ _ _ _ _ toy_model_constructed toy_first_train)
    as (_ & _ & _ & _ & _ & _ & _ & g & _ & _ & _ & _ & d_cov & d_enc & Hcalls & _).
  exists d_cov, d_enc, g. exact Hcalls.
Defined.

Section Modes.

Variable T : Collaborators.

(** C10.  However [train_on_batch] ends, both sub-models are left in
    training mode; however [validate_on_batch] ends, both are left in
    evaluation mode.  The mode found on entry is not put back. *)
Theorem mode_switch_persists (images messages : ndarray) (m : UnetModel) :
  constructed m ->
  (forall m' r, train_on_batch T images messages m = (m', r) ->
     training (encoder_decoder m') = true
     /\ training (discriminator m') = true)
  /\ (forall m' r, validate_on_batch T images messages m = (m', r) ->
       training (encoder_decoder m') = false
       /\ training (discriminator m') = false).
Proof.
  intros Hc. open_model m Hc. split; intros m' [r|e] H.
  - run H. by cbn.
  - run_raise H ltac:(by cbn).
  - run H. by cbn.
  - run_raise H ltac:(by cbn).
Qed.

End Modes.

Lemma mode_switch_persists_witness :
  constructed Toy.model
  /\ training (encoder_decoder Toy.trained) = true
  /\ training (discriminator Toy.trained) = true.
Proof.
  split; [exact toy_model_constructed|].
  exact (proj1 (mode_switch_persists Toy.framework Toy.images Toy.messages
                  Toy.model toy_model_constructed) _ _ toy_first_train).
Defined.

Section Frames.

Variable T : Collaborators.

(** C2 (amended).  A step of the discriminator optimizer leaves the
    encoder-decoder as it is, and a step of the encoder-decoder optimizer
    leaves the discriminator as it is.  The discriminator phase changes
    neither the parameters nor the gradients of the encoder-decoder nor its
    optimizer: the loss on the detached encoded images adds nothing to them,
    so they are zero after the discriminator step when they were zero on
    entry.  The generator phase changes neither the parameters of the
    discriminator nor its optimizer. *)
Theorem optimizer_frames (m : UnetModel) :
  constructed m ->
  encoder_decoder (fst (step T self_optimizer_discrim m)) = encoder_decoder m
  /\ discriminator (fst (step T self_optimizer_enc_dec m)) = discriminator m
  /\ (forall n images messages m1 r,
        discriminator_phase T n images messages m = (m1, Ok r) ->
        parameters (encoder_decoder m1) = parameters (encoder_decoder m)
        /\ grad (encoder_decoder m1) = grad (encoder_decoder m)
        /\ optimizer_enc_dec m1 = optimizer_enc_dec m
        /\ (all_zero (grad (encoder_decoder m)) = true ->
            all_zero (grad (encoder_decoder m1)) = true))
  /\ (forall images messages g_target enc dec m2 r,
        generator_phase T images messages g_target enc dec m = (m2, Ok r) ->
        parameters (discriminator m2) = parameters (discriminator m)
        /\ optimizer_discrim m2 = optimizer_discrim m).
Proof.
  intros Hc. open_model m Hc. split; [reflexivity|]. split; [reflexivity|]. split.
  - intros n images messages m1 r H. run H. cbn.
    rewrite !vadd_nil_r. by repeat split.
  - intros images messages g_target enc dec m2 r H. run H. by cbn.
Qed.

End Frames.

Lemma optimizer_frames_witness :
  constructed Toy.trained
  /\ encoder_decoder (fst (step Toy.framework self_optimizer_discrim Toy.trained))
     = encoder_decoder Toy.trained.
Proof.
  assert (Hc : constructed Toy.trained) by (repeat split).
  split; [exact Hc|].
  exact (proj1 (optimizer_frames Toy.framework Toy.trained Hc)).
Defined.

(** Against C2 as stated, on the second call: the gradients that the first
    generator phase left on the encoder-decoder are still there right after
    the second discriminator step. *)
Lemma stale_generator_gradient :
  init Toy.framework Toy.config ∅ = Ok Toy.model
  /\ train_on_batch Toy.framework Toy.images Toy.messages Toy.model
     = (Toy.trained,
        Ok (Toy.train_losses, (Toy.train_encoded, Toy.train_noised, Toy.train_decoded)))
  /\ succeeded (snd Toy.second_discriminator_phase) = true
  /\ all_zero (grad (encoder_decoder (fst Toy.second_discriminator_phase))) = false.
Proof.
  split; [vm_compute; reflexivity|]. split; [exact toy_first_train|].
  split; vm_compute; reflexivity.
Qed.

Section JointLoss.

Variable T : Collaborators.

(** C3.  In a call of [train_on_batch] or of [validate_on_batch] that
    returns, the joint generator loss is [adv_loss_weight] times the
    adversarial loss plus [enc_loss_weight] times the encoder
    mean-squared-error plus [dec_loss_weight] times the decoder
    mean-squared-error, the last weight being 1 when the configuration has
    no [dec_loss_weight]. *)
Theorem joint_loss_composition
    (run : ndarray -> ndarray -> M (LossSet * (Tensor * Tensor * Tensor)))
    (images messages : ndarray) (m m' : UnetModel) (ls : LossSet)
    (out : Tensor * Tensor * Tensor) :
  run = train_on_batch T \/ run = validate_on_batch T ->
  constructed m ->
  run images messages m = (m', Ok (ls, out)) ->
  exists (w_adv w_enc w_dec : Q) (g_adv e_mse d_mse err d_cov d_enc : npfloat),
    config m !! "adv_loss_weight" = Some (PyNum w_adv)
    /\ config m !! "enc_loss_weight" = Some (PyNum w_enc)
    /\ get (config m) "dec_loss_weight" (PyNum 1) = PyNum w_dec
    /\ (config m !! "dec_loss_weight" = None -> w_dec = 1)
    /\ ls = [ (value T unet_loss,
               Float.add
                 (Float.add (Float.mul (Fin w_adv) g_adv)
                            (Float.mul (Fin w_enc) e_mse))
                 (Float.mul (Fin w_dec) d_mse));
              (value T encoder_mse, e_mse);
              (value T decoder_mse, d_mse); (value T bitwise, err);
              (value T gen_adv_bce, g_adv); (value T discr_cov_bce, d_cov);
              (value T discr_enc_bce, d_enc) ].
Proof.
  intros Hrun Hc H. open_model m Hc.
  destruct Hrun as [-> | ->]; run H; rewrite losses_entries;
    do 9 eexists;
    (split; [eassumption|]); (split; [eassumption|]); (split; [eassumption|]);
    (split; [|reflexivity]);
    intros Hnone;
    match goal with
    | Hg : get _ _ _ = PyNum _ |- _ =>
        unfold get in Hg; cbn in Hnone; rewrite Hnone in Hg; by injection Hg as <-
    end.
Qed.

End JointLoss.

Lemma toy_first_validate :
  validate_on_batch Toy.framework Toy.images Toy.messages Toy.model
  = (Toy.validated, Ok (Toy.validate_losses, Toy.validate_out)).
Proof. vm_compute. reflexivity. Defined.

Lemma joint_loss_composition_witness :
  constructed Toy.model
  /\ validate_on_batch Toy.framework Toy.images Toy.messages Toy.model
     = (Toy.validated, Ok (Toy.validate_losses, Toy.validate_out))
  /\ exists g_adv e_mse d_mse,
       dict_get "g_adv_bce" Toy.validate_losses = Some g_adv
       /\ dict_get "encoder_mse" Toy.validate_losses = Some e_mse
       /\ dict_get "dec_mse" Toy.validate_losses = Some d_mse
       /\ dict_get "unet_loss" Toy.validate_losses
          = Some (Float.add
                    (Float.add (Float.mul (Fin (1 # 1000)) g_adv)
                               (Float.mul (Fin (7 # 10)) e_mse))
                    (Float.mul (Fin 1) d_mse)).
Proof.
  split; [exact toy_model_constructed|]. split; [exact toy_first_validate|].
  destruct (joint_loss_composition Toy.framework (validate_on_batch Toy.framework)
              Toy.images Toy.messages Toy.model _ _ _
              (or_intror eq_refl) toy_model_constructed toy_first_validate)
    as (w_adv & w_enc & w_dec & g_adv & e_mse & d_mse & err & d_cov & d_enc
        & Ha & He & Hd & _ & Hls).
  vm_compute in Ha, He, Hd.
  injection Ha as <-. injection He as <-. injection Hd as <-.
  exists g_adv, e_mse, d_mse. rewrite Hls. repeat split.
Defined.

Section Display.

Variable T : Collaborators.

(** C9.  [str] and [repr] of the orchestrator are the description of the
    encoder-decoder; whatever the discriminator is, they are the same. *)
Theorem str_delegates_to_encoder_decoder (m : UnetModel) :
  UnetModel_str T m = module_str T (encoder_decoder m)
  /\ UnetModel_repr T m = module_str T (encoder_decoder m)
  /\ forall d : Module_,
       UnetModel_str T (set_module Discrim d m) = UnetModel_str T m
       /\ UnetModel_repr T (set_module Discrim d m) = UnetModel_repr T m.
Proof. repeat split. Qed.

End Display.

Section Validation.

Variable T : Collaborators.

Ltac replay :=
  repeat match goal with
    | Hq : ?l = Ok _ |- context [?l] => rewrite Hq; cbn
    end.

(** C5.  However [validate_on_batch] ends, the parameters and gradients of
    both sub-models and both optimizers are as before, and it has made no
    call that clears gradients, back-propagates or steps an optimizer.
    When it returns, a second call on the same batch returns the same loss
    mapping. *)
Theorem validate_on_batch_pure (images messages : ndarray) (m : UnetModel) :
  (forall m1 r, validate_on_batch T images messages m = (m1, r) ->
     parameters (encoder_decoder m1) = parameters (encoder_decoder m)
     /\ grad (encoder_decoder m1) = grad (encoder_decoder m)
     /\ parameters (discriminator m1) = parameters (discriminator m)
     /\ grad (discriminator m1) = grad (discriminator m)
     /\ optimizer_enc_dec m1 = optimizer_enc_dec m
     /\ optimizer_discrim m1 = optimizer_discrim m
     /\ exists evs, calls m1 = calls m ++ evs
                    /\ existsb optimizer_call evs = false)
  /\ (forall m1 ls out, validate_on_batch T images messages m = (m1, Ok (ls, out)) ->
       exists m2 out2,
         validate_on_batch T images messages m1 = (m2, Ok (ls, out2))).
Proof.
  open_object m. split.
  - intros m1 [r|e] H.
    + run H. cbn. repeat split.
      eexists. split; [rewrite <- !app_assoc; reflexivity|reflexivity].
    + run_raise H ltac:(cbn; repeat split; eexists;
                        (split; [rewrite <- ?app_assoc; reflexivity|reflexivity])).
  - intros m1 ls out H. run H. cbn in *.
    do 2 eexists.
    unfold validate_on_batch, mbind, M_bind, eval, modify, gets, lift,
      call_discriminator, call_encoder_decoder, binary_cross_entropy_with_logits,
      mse_loss, mret, M_ret.
    unfold set_training in *. cbn in *. replay.
    erewrite joint_loss_intro by eassumption. cbn. replay.
    reflexivity.
Qed.

End Validation.

Section Errors.

Variable T : Collaborators.

#[local] Arguments shape_getitem : simpl nomatch.

Lemma shape_getitem_Err (t : Input) (i : nat) (e : exn) :
  shape_getitem t i = Err e -> index_error e /\ shape t !! i = None.
Proof.
  unfold shape_getitem. destruct (shape t !! i); [discriminate|].
  by intros [= <-].
Qed.

Lemma shape_0_None (t : Input) : shape t !! 0%nat = None -> shape t = [].
Proof. by destruct t. Qed.

Ltac classify :=
  lazymatch goal with
  | Hx : shape_getitem _ 0 = Err _ |- _ =>
      left; apply shape_getitem_Err in Hx as [? Hx]; apply shape_0_None in Hx;
      by repeat split
  | Hx : discrim_forward _ _ _ = Err _ |- _ =>
      right; left; split; [left; left; eauto|]
  | Hx : enc_dec_forward _ _ _ _ = Err _ |- _ =>
      right; left; split; [left; right; left; eauto|]
  | Hx : bce_with_logits _ _ _ = Err _ |- _ =>
      right; left; split; [left; right; right; eauto|]
  | Hx : Np.broadcast2 _ _ _ = Err _ |- _ =>
      right; left; split; [right; right; exact mse_loss_broadcast_error|]
  | Hx : joint_loss _ _ _ _ = Err _ |- _ =>
      right; left; split; [right; left; exact (joint_loss_Err _ _ _ _ _ Hx)|]
  | Hx : bitwise_avg_err _ _ _ = Err _ |- _ =>
      apply bitwise_avg_err_raises in Hx as [Hx | [? Hx]];
      [ right; left; split; [by right; right|]
      | right; right; split; [done|]; split; [done|] ]
  end.

Ltac calls_made :=
  cbn;
  first
    [ eexists; rewrite <- ?app_assoc; reflexivity
    | eexists; split; [rewrite <- ?app_assoc; reflexivity|];
      split; apply list_elem_of_In; cbn; auto 20 ].

(** C8 (amended).  Neither method checks a shape itself; each reads
    [images.shape[0]] first and [messages.shape[1]] last.  An error of
    [train_on_batch] or [validate_on_batch] is one of these.  The
    [IndexError] of [images.shape[0]] on an [images] tensor of no dimension,
    raised before anything is done.  An error raised by a call into a
    collaborator, by two arrays that do not broadcast (in a
    mean-squared-error loss or in the bitwise metric), or by the joint loss
    on a weight that is missing from the configuration, is not a number or
    is an [int] beyond 64 bits; by then both sub-models have been switched
    and the discriminator has been called on the images.  The [IndexError]
    of [messages.shape[1]] on a [messages] tensor of fewer than two
    dimensions, raised when every call has been made: in [train_on_batch]
    after both optimizer steps. *)
Theorem batch_errors (images messages : Input) (m : UnetModel) :
  constructed m ->
  (forall m' e, train_on_batch T images messages m = (m', Err e) ->
     (index_error e /\ shape images = [] /\ m' = m)
     \/ ((collaborator_error T e \/ weight_error (config m) e \/ broadcast_error e)
         /\ exists evs,
              calls m' = calls m ++
                [ EvTrain EncDec; EvTrain Discrim; EvZeroGrad Discrim;
                  EvForward Discrim [view images] false ] ++ evs)
     \/ (index_error e /\ shape messages !! 1%nat = None
         /\ exists evs,
              calls m' = calls m ++ evs
              /\ EvStep Discrim ∈ evs /\ EvStep EncDec ∈ evs))
  /\ (forall m' e, validate_on_batch T images messages m = (m', Err e) ->
       (index_error e /\ shape images = [] /\ m' = m)
       \/ ((collaborator_error T e \/ weight_error (config m) e \/ broadcast_error e)
           /\ exists evs,
                calls m' = calls m ++
                  [ EvEval EncDec; EvEval Discrim;
                    EvForward Discrim [view images] false ] ++ evs)
       \/ (index_error e /\ shape messages !! 1%nat = None
           /\ exists enc,
                calls m' = calls m ++
                  [ EvEval EncDec; EvEval Discrim;
                    EvForward Discrim [view images] false;
                    EvForward EncDec [view images; view messages] false;
                    EvForward Discrim [enc] false;
                    EvForward Discrim [enc] false ])).
Proof.
  intros Hc. open_model m Hc. split; intros m' e H.
  - run_raise H ltac:(idtac; classify; calls_made).
  - run_raise H ltac:(idtac; classify; calls_made).
Qed.

End Errors.

Lemma batch_errors_witness :
  constructed Toy.model
  /\ train_on_batch Toy.framework Toy.one_image Toy.flat_message Toy.model
     = (fst Toy.flat_train, Err (IndexError "tuple index out of range"))
  /\ ((index_error (IndexError "tuple index out of range")
       /\ shape Toy.one_image = [] /\ fst Toy.flat_train = Toy.model)
      \/ ((collaborator_error Toy.framework (IndexError "tuple index out of range")
           \/ weight_error (config Toy.model) (IndexError "tuple index out of range")
           \/ broadcast_error (IndexError "tuple index out of range"))
          /\ exists evs,
               calls (fst Toy.flat_train) = calls Toy.model ++
                 [ EvTrain EncDec; EvTrain Discrim; EvZeroGrad Discrim;
                   EvForward Discrim [view Toy.one_image] false ] ++ evs)
      \/ (index_error (IndexError "tuple index out of range")
          /\ shape Toy.flat_message !! 1%nat = None
          /\ exists evs,
               calls (fst Toy.flat_train) = calls Toy.model ++ evs
               /\ EvStep Discrim ∈ evs /\ EvStep EncDec ∈ evs)).
Proof.
  assert (Hc : constructed Toy.model) by (repeat split).
  assert (E : train_on_batch Toy.framework Toy.one_image Toy.flat_message Toy.model
              = (fst Toy.flat_train, Err (IndexError "tuple index out of range")))
    by (vm_compute; reflexivity).
  split; [exact Hc|]. split; [exact E|].
  exact (proj1 (batch_errors Toy.framework Toy.one_image Toy.flat_message
                  Toy.model Hc) _ _ E).
Defined.

(** Against C8 as stated: on a batch whose shapes agree with each other and
    with the configured message length, both methods raise a [KeyError]. *)
Lemma key_error_on_well_shaped_batch :
  init Toy.framework Toy.config_without_weights ∅ = Ok Toy.unweighted
  /\ Toy.config_without_weights !! "message" = Some (PyNum 2)
  /\ has_shape 2 3 Toy.images
  /\ has_shape 2 2 Toy.messages
  /\ snd (train_on_batch Toy.framework Toy.images Toy.messages Toy.unweighted)
     = Err (KeyError "adv_loss_weight")
  /\ snd (validate_on_batch Toy.framework Toy.images Toy.messages Toy.unweighted)
     = Err (KeyError "adv_loss_weight").
Proof.
  split; [vm_compute; reflexivity|]. split; [vm_compute; reflexivity|].
  split; [repeat split; repeat constructor|].
  split; [repeat split; repeat constructor|].
  split; vm_compute; reflexivity.
Qed.

Section Construction.

Variable T : Collaborators.

#[local] Arguments getitem : simpl never.
#[local] Arguments Adam : simpl never.

Lemma getitem_delete_ne (cfg : gmap string PyVal) (k k' : string) :
  k <> k' -> getitem (delete k cfg) k' = getitem cfg k'.
Proof. intros H. unfold getitem. by rewrite lookup_delete_ne. Qed.

Lemma getitem_None (cfg : gmap string PyVal) (k : string) (v : PyVal) :
  cfg !! k = None -> getitem cfg k = Ok v -> False.
Proof. intros H. unfold getitem. by rewrite H. Qed.

Lemma Adam_owner (o : Owner) (md : Module_) (opt : Optimizer) :
  Adam o md = Ok opt -> param_owner opt = o.
Proof. unfold Adam. destruct (parameters md); [discriminate|]. by intros [= <-]. Qed.

Ltac run_init H :=
  unfold init, mbind, result_bind, mret, result_ret in H; cbn in H;
  case_call H; cbn in H.

(** What [__init__] builds. *)
Lemma init_Ok (cfg kwargs : gmap string PyVal) (m : UnetModel) :
  init T cfg kwargs = Ok m -> constructed m /\ config m = cfg.
Proof.
  intros H. run_init H. injection H as <-. cbn.
  repeat split; by eapply Adam_owner.
Qed.


End Construction.

Section MeanSquaredError.

Lemma Qsum_nonneg (l : list Q) : Forall (fun q => 0 <= q) l -> 0 <= Np.Qsum l.
Proof.
  induction 1 as [|x l Hx _ IH]; [discriminate|].
  change (Np.Qsum (x :: l)) with (x + Np.Qsum l). lra.
Qed.

Lemma square_nonneg (a : Q) : 0 <= a * a.
Proof. nra. Qed.

Lemma squares_nonneg (ra rb : list (list Q)) :
  Forall (fun q => 0 <= q)
    (List.map Np.Qsum (zip_with (zip_with (fun x y => (x - y) * (x - y))) ra rb)).
Proof.
  revert rb. induction ra as [|r ra IH]; intros [|s rb];
    cbn [zip_with List.map]; [constructor..|].
  constructor; [|apply IH].
  apply Qsum_nonneg. clear. revert s.
  induction r as [|x r IH]; intros [|y s]; cbn [zip_with]; [constructor..|].
  constructor; [apply square_nonneg|apply IH].
Qed.

Lemma squared_error_nonneg (a b : ndarray) : 0 <= squared_error a b.
Proof. apply Qsum_nonneg, squares_nonneg. Qed.

Lemma div_finite_nonneg (x : Q) (n : nat) :
  (0 < n)%nat -> 0 <= x -> exists q, Np.div x n = Fin q /\ 0 <= q.
Proof.
  intros Hn Hx. destruct n as [|k]; [lia|]. eexists. split; [reflexivity|].
  apply Qle_shift_div_l; [|lra].
  change 0 with (inject_Z 0). rewrite <- Zlt_Qlt. lia.
Qed.

(** The mean of the squared differences of two arrays of one shape, in
    exact arithmetic. *)
Lemma mse_finite_nonneg (n l : nat) (a b s : ndarray) :
  (0 < n * l)%nat -> has_shape n l a -> has_shape n l b ->
  Np.broadcast2 (fun x y => (x - y) * (x - y)) a b = Ok s ->
  exists q, Np.div (Np.sum s) (Np.numel s) = Fin q /\ 0 <= q.
Proof.
  intros Hpos Ha Hb Hs.
  rewrite (broadcast2_same_shape _ n l a b Ha Hb) in Hs. injection Hs as <-.
  apply div_finite_nonneg.
  - unfold Np.numel, shape0. cbn.
    destruct Ha as (Ha & _), Hb as (Hb & _). unfold shape0 in *.
    rewrite length_zip_with. lia.
  - unfold Np.sum. cbn. apply Qsum_nonneg, squares_nonneg.
Qed.

(** The squares of a mean-squared-error loss on two arrays of one shape. *)
Lemma mse_squares (n l : nat) (a b s : ndarray) :
  has_shape n l a -> has_shape n l b ->
  Np.broadcast2 (fun x y => (x - y) * (x - y)) a b = Ok s ->
  Np.sum s = squared_error a b /\ Np.numel s = (n * l)%nat.
Proof.
  intros Ha Hb Hs.
  rewrite (broadcast2_same_shape _ n l a b Ha Hb) in Hs. injection Hs as <-.
  split; [reflexivity|].
  unfold Np.numel, shape0. cbn.
  destruct Ha as (Ha & _), Hb as (Hb & _). unfold shape0 in *.
  rewrite length_zip_with. lia.
Qed.

End MeanSquaredError.

Section FloatFacts.

Lemma largest_pos : 0 < Float.largest.
Proof. reflexivity. Qed.

Lemma of_Q_in_range (q : Q) : 0 <= q -> q <= Float.largest -> Float.of_Q q = Fin q.
Proof.
  intros H0 H1. unfold Float.of_Q.
  rewrite (proj2 (Qle_bool_iff _ _)); [done|].
  rewrite Qabs_pos; done.
Qed.

Lemma of_Q_beyond (q : Q) : Float.largest < q -> Float.of_Q q = PInf.
Proof.
  intros H. pose proof largest_pos as Hl. unfold Float.of_Q.
  destruct (Qle_bool (Qabs q) Float.largest) eqn:E.
  - apply Qle_bool_iff in E. rewrite Qabs_pos in E; lra.
  - rewrite (proj2 (Qle_bool_iff 0 q)); [done|lra].
Qed.

Lemma of_Q_cases (q : Q) :
  0 <= q ->
  (q <= Float.largest /\ Float.of_Q q = Fin q)
  \/ (Float.largest < q /\ Float.of_Q q = PInf).
Proof.
  intros H. destruct (Qlt_le_dec Float.largest q) as [Hq | Hq].
  - right. split; [done|]. by apply of_Q_beyond.
  - left. split; [done|]. by apply of_Q_in_range.
Qed.

Lemma of_Q_nonneg (q : Q) : 0 <= q -> Float.nonneg (Float.of_Q q).
Proof. intros H. by destruct (of_Q_cases q H) as [[_ ->] | [_ ->]]. Qed.

(** The float mean of [n >= 1] values whose exact sum [x] is not below
    zero: finite exactly when the sum is within the range. *)
Lemma mean_of_sum (x : Q) (n : nat) :
  (0 < n)%nat -> 0 <= x ->
  Float.nonneg (Float.mean (Float.of_Q x) n)
  /\ (Float.finite (Float.mean (Float.of_Q x) n) <-> x <= Float.largest)
  /\ (forall q, Float.mean (Float.of_Q x) n = Fin q ->
        q == x / Qnat n /\ 0 <= q <= Float.largest).
Proof.
  intros Hn Hx. pose proof (Qnat_pos n Hn) as Hq.
  destruct n as [|k]; [lia|].
  assert (H1 : 1 <= Qnat (S k)).
  { unfold Qnat. change 1 with (inject_Z 1). rewrite <- Zle_Qle. lia. }
  destruct (of_Q_cases x Hx) as [[Hle ->] | [Hgt ->]]; cbn.
  - assert (Hd : 0 <= x / Qnat (S k)) by (apply Qle_shift_div_l; lra).
    split; [exact Hd|]. split.
    + split; [done|]. intros _. by eexists.
    + intros q [= <-]. split; [reflexivity|]. split; [done|].
      apply Qle_shift_div_r; [done|].
      assert (Float.largest * 1 <= Float.largest * Qnat (S k))
        by (apply Qmult_le_l; [exact largest_pos|exact H1]).
      change (inject_Z (Z.of_nat (S k))) with (Qnat (S k)).
      generalize dependent (Qnat (S k)). generalize dependent Float.largest.
      intros; lra.
  - split; [done|]. split.
    + split; [intros [q Hq']; discriminate|lra].
    + discriminate.
Qed.

(** A weight that is not below zero times a loss that is not. *)
Lemma mul_not_negative (w : Q) (v : npfloat) :
  0 <= w -> Float.nonneg v -> Float.is_negative (Float.mul (Fin w) v) = false.
Proof.
  intros Hw Hv. unfold Float.mul, Float.cast.
  destruct (of_Q_cases w Hw) as [[_ ->] | [_ ->]]; destruct v as [q| | |]; cbn in *;
    try done.
  - assert (H : 0 <= w * q) by nra.
    destruct (of_Q_cases _ H) as [[_ ->] | [_ ->]]; cbn; [|done].
    by rewrite (proj2 (Qle_bool_iff _ _)).
  - destruct (w ?= 0) eqn:E; cbn; try done.
    apply Qlt_alt in E. lra.
  - destruct (q ?= 0) eqn:E; cbn; try done.
    apply Qlt_alt in E. lra.
Qed.

Lemma add_not_negative (a b : npfloat) :
  Float.is_negative a = false -> Float.is_negative b = false ->
  Float.is_negative (Float.add a b) = false.
Proof.
  destruct a as [x| | |], b as [y| | |]; cbn; try done.
  intros Hx Hy. apply negb_false_iff, Qle_bool_iff in Hx, Hy.
  assert (H : 0 <= x + y) by lra.
  destruct (of_Q_cases _ H) as [[_ ->] | [_ ->]]; cbn; [|done].
  by rewrite (proj2 (Qle_bool_iff _ _)).
Qed.

Lemma mul_in_range (w v : Q) :
  0 <= w <= Float.largest -> 0 <= v -> w * v <= Float.largest ->
  Float.mul (Fin w) (Fin v) = Fin (w * v).
Proof.
  intros [? ?] ? ?. unfold Float.mul, Float.cast.
  rewrite (of_Q_in_range w) by done.
  apply of_Q_in_range; [nra|done].
Qed.

Lemma add_in_range (a b : Q) :
  0 <= a -> 0 <= b -> a + b <= Float.largest ->
  Float.add (Fin a) (Fin b) = Fin (a + b).
Proof. intros ? ? ?. unfold Float.add. apply of_Q_in_range; [lra|done]. Qed.

(** Within the range the weighted sum is the exact one. *)
Lemma weighted_sum_in_range (w1 w2 w3 v1 v2 v3 : Q) :
  0 <= w1 <= Float.largest -> 0 <= w2 <= Float.largest ->
  0 <= w3 <= Float.largest ->
  0 <= v1 -> 0 <= v2 -> 0 <= v3 ->
  w1 * v1 + w2 * v2 + w3 * v3 <= Float.largest ->
  Float.add (Float.add (Float.mul (Fin w1) (Fin v1)) (Float.mul (Fin w2) (Fin v2)))
    (Float.mul (Fin w3) (Fin v3))
  = Fin (w1 * v1 + w2 * v2 + w3 * v3)
  /\ 0 <= w1 * v1 + w2 * v2 + w3 * v3.
Proof.
  intros Hw1 Hw2 Hw3 ? ? ? Hs.
  assert (0 <= w1 * v1) by (apply Qmult_le_0_compat; tauto).
  assert (0 <= w2 * v2) by (apply Qmult_le_0_compat; tauto).
  assert (0 <= w3 * v3) by (apply Qmult_le_0_compat; tauto).
  assert (Hb : w1 * v1 <= Float.largest /\ w2 * v2 <= Float.largest
               /\ w3 * v3 <= Float.largest
               /\ w1 * v1 + w2 * v2 <= Float.largest
               /\ 0 <= w1 * v1 + w2 * v2
               /\ 0 <= w1 * v1 + w2 * v2 + w3 * v3).
  { revert Hs H2 H3 H4.
    generalize (w1 * v1) (w2 * v2) (w3 * v3) Float.largest. intros; lra. }
  destruct Hb as (? & ? & ? & ? & ? & ?).
  rewrite !mul_in_range by done.
  rewrite (add_in_range (w1 * v1)) by done.
  by rewrite add_in_range.
Qed.

End FloatFacts.

Section LossSets.

Variable T : Collaborators.
Hypothesis WB : well_behaved T.

Lemma wb_discrim_Ok (md : Module_) (x y : ndarray) :
  discrim_forward T md x = Ok y -> has_shape (shape0 x) 1 y.
Proof.
  intros H. destruct WB as (HD & _). destruct (HD md x) as (y' & Hy & Hs).
  congruence.
Qed.

Lemma wb_discrim_Err (md : Module_) (x : ndarray) (e : exn) :
  discrim_forward T md x = Err e -> False.
Proof.
  intros H. destruct WB as (HD & _). destruct (HD md x) as (y' & Hy & Hs).
  congruence.
Qed.

Lemma wb_enc_dec_Ok (md : Module_) (n l k : nat) (images messages enc noi dec : ndarray) :
  has_shape n l images -> has_shape n k messages ->
  enc_dec_forward T md images messages = Ok (enc, noi, dec) ->
  has_shape n l enc /\ has_shape n k dec.
Proof.
  intros (Hi0 & Hi1 & Hiw) (Hm0 & Hm1 & Hmw) H. destruct WB as (_ & HE & _).
  destruct (HE md images messages) as (e' & n' & d' & He & Hse & Hsd);
    [congruence|done..|].
  rewrite Hi0, Hi1 in Hse. rewrite Hm0, Hm1 in Hsd.
  assert (e' = enc /\ d' = dec) as [-> ->] by (split; congruence). done.
Qed.

Lemma wb_enc_dec_Err (md : Module_) (n l k : nat) (images messages : ndarray) (e : exn) :
  has_shape n l images -> has_shape n k messages ->
  enc_dec_forward T md images messages = Err e -> False.
Proof.
  intros (Hi0 & Hi1 & Hiw) (Hm0 & Hm1 & Hmw) H. destruct WB as (_ & HE & _).
  destruct (HE md images messages) as (e' & n' & d' & He & _);
    [congruence|done..|]. congruence.
Qed.

Lemma wb_bce_Ok (n : nat) (x : ndarray) (label : Q) (v : npfloat) :
  (0 < n)%nat -> label = 0 \/ label = 1 -> has_shape n 1 x ->
  bce_with_logits T x (Np.full n 1 label) = Ok v ->
  exists q, v = Fin q /\ 0 <= q.
Proof.
  intros Hn Hl Hx H. destruct WB as (_ & _ & HB).
  destruct (HB n x label Hx) as (v' & Hv & Hfin).
  assert (v' = v) as -> by congruence. by apply Hfin.
Qed.

Lemma wb_bce_Err (n : nat) (x : ndarray) (label : Q) (e : exn) :
  has_shape n 1 x -> bce_with_logits T x (Np.full n 1 label) = Err e -> False.
Proof.
  intros Hx H. destruct WB as (_ & _ & HB).
  destruct (HB n x label Hx) as (v' & Hv & _). congruence.
Qed.

End LossSets.

Section LossSetTheorem.

Variable T : Collaborators.

Ltac facts WB Hi Hm :=
  repeat match goal with
    | Hq : enc_dec_forward T _ _ _ = Ok (?e, _, ?d) |- _ =>
        lazymatch goal with
        | _ : has_shape _ _ e |- _ => fail
        | _ => destruct (wb_enc_dec_Ok T WB _ _ _ _ _ _ _ _ _ Hi Hm Hq) as [? ?]
        end
    | Hq : discrim_forward T _ ?x = Ok ?y |- _ =>
        lazymatch goal with
        | _ : has_shape _ 1 y |- _ => fail
        | _ =>
            let S := fresh "S" in
            pose proof (wb_discrim_Ok T WB _ _ _ Hq) as S;
            try match goal with
              | Hs : has_shape _ _ x |- _ => rewrite (proj1 Hs) in S
              end
        end
    end.

Ltac values WB :=
  repeat match goal with
    | Hq : bce_with_logits T ?x (Np.full ?n 1 ?lab) = Ok ?v |- _ =>
        is_var v;
        destruct (wb_bce_Ok T WB n x lab v) as (? & -> & ?);
        [done | by (left + right) | assumption | exact Hq | clear Hq]
    | Hq : Np.broadcast2 _ ?a ?b = Ok ?s,
      Ha : has_shape ?n ?l ?a, Hb : has_shape ?n ?l ?b |- _ =>
        let E1 := fresh "E" in
        let E2 := fresh "E" in
        destruct (mse_squares n l a b s Ha Hb Hq) as [E1 E2];
        rewrite E1, E2; clear Hq E1 E2 s
    | Hq : bitwise_avg_err ?n ?d (Dim2 ?msgs) = Ok ?x,
      Hs : has_shape ?n ?k ?d, Hm : has_shape ?n ?k ?msgs, Hb : binary ?msgs |- _ =>
        is_var x;
        rewrite (bitwise_avg_err_value n k d msgs ltac:(lia) Hs Hm) in Hq;
        injection Hq as <-;
        pose proof (spec_bitwise_error_bounds 0 1 n k d msgs ltac:(lia) Hs
                      (entrywise_bits n k d msgs Hs Hm Hb))
    end.

Ltac impossible WB Hi Hm :=
  facts WB Hi Hm;
  lazymatch goal with
  | Hx : discrim_forward T _ _ = Err _ |- _ => exact (wb_discrim_Err T WB _ _ _ Hx)
  | Hx : enc_dec_forward T _ _ _ = Err _ |- _ =>
      exact (wb_enc_dec_Err T WB _ _ _ _ _ _ _ Hi Hm Hx)
  | Hx : bce_with_logits T ?x (Np.full ?n 1 ?lab) = Err _ |- _ =>
      apply (wb_bce_Err T WB n x lab _) in Hx; [exact Hx|assumption]
  | Hx : Np.broadcast2 _ ?a ?b = Err _,
    Ha : has_shape ?n ?l ?a, Hb : has_shape ?n ?l ?b |- _ =>
      rewrite (broadcast2_same_shape _ n l a b Ha Hb) in Hx; discriminate Hx
  | Hx : joint_loss _ _ _ _ = Err _ |- _ =>
      erewrite joint_loss_intro in Hx by eassumption; discriminate Hx
  | Hx : bitwise_avg_err ?n ?d (Dim2 ?msgs) = Err _,
    Hs : has_shape ?n ?k ?d, Hm : has_shape ?n ?k ?msgs |- _ =>
      rewrite (bitwise_avg_err_value n k d msgs ltac:(lia) Hs Hm) in Hx;
      discriminate Hx
  end.


End LossSetTheorem.

(** * The small instance *)

Lemma toy_images_shape : has_shape 2 3 Toy.images.
Proof. repeat split; repeat constructor. Defined.

Lemma toy_messages_shape : has_shape 2 2 Toy.messages.
Proof. repeat split; repeat constructor. Defined.

Lemma toy_decoded_shape : has_shape 2 2 Toy.decoded.
Proof. repeat split; repeat constructor. Defined.

Lemma toy_messages_binary : binary Toy.messages.
Proof.
  repeat constructor; first [by left | by right].
Defined.

Lemma toy_discrim_shape (md : Module_) (x : ndarray) :
  exists y, Toy.discrim_forward md x = Ok y /\ has_shape (shape0 x) 1 y.
Proof.
  eexists. split; [reflexivity|]. unfold has_shape, shape0, Np.wf. cbn.
  rewrite length_map. repeat split.
  apply Forall_map, Forall_true. done.
Defined.

Lemma toy_enc_dec_shape (md : Module_) (images messages : ndarray) :
  shape0 images = shape0 messages -> Np.wf images -> Np.wf messages ->
  exists enc noi dec,
    Toy.enc_dec_forward md images messages = Ok (enc, noi, dec)
    /\ has_shape (shape0 images) (shape1 images) enc
    /\ has_shape (shape0 messages) (shape1 messages) dec.
Proof.
  intros H0 Hi Hm. unfold Toy.enc_dec_forward.
  rewrite H0, Nat.eqb_refl. do 3 eexists. split; [reflexivity|].
  rewrite <- H0. split; by apply map_has_shape.
Defined.

Lemma toy_bce_value (n : nat) (x : ndarray) (label : Q) :
  has_shape n 1 x ->
  exists v, Toy.bce_with_logits x (Np.full n 1 label) = Ok v
            /\ ((0 < n)%nat -> label = 0 \/ label = 1 -> Float.finite_nonneg v).
Proof.
  intros Hx. pose proof (full_has_shape n 1 label) as Hf.
  unfold Toy.bce_with_logits, Toy.same_shape.
  destruct Hx as (Hx0 & Hx1 & Hxw). destruct Hf as (Hf0 & Hf1 & Hfw).
  rewrite Hx0, Hx1, Hf0, Hf1, !Nat.eqb_refl. cbn [andb].
  assert (Hx : has_shape n 1 x) by done.
  assert (Hf : has_shape n 1 (Np.full n 1 label)) by done.
  rewrite (broadcast2_same_shape _ n 1 x _ Hx Hf).
  eexists. split; [reflexivity|]. intros Hn _.
  apply (mse_finite_nonneg n 1 x (Np.full n 1 label)); [lia|done..|].
  apply (broadcast2_same_shape _ n 1 x _ Hx Hf).
Defined.

Lemma toy_well_behaved : well_behaved Toy.framework.
Proof.
  split; [exact toy_discrim_shape|]. split; [exact toy_enc_dec_shape|].
  exact toy_bce_value.
Defined.

(** Against C4 as stated: the value does not lie in [0,1] for every input.
    On an empty batch it is the [nan] of 0.0 divided by 0; on a message
    entry that is not a bit, or on messages that only broadcast against the
    decoded ones, it is above 1. *)
Lemma bitwise_error_outside_unit_interval :
  bitwise_avg_err 0 (NdArray 2 []) (NdArray 2 []) = Ok NaN
  /\ bitwise_avg_err 1 (NdArray 1 [[0]]) (NdArray 1 [[3]]) = Ok (Fin 3)
  /\ bitwise_avg_err 1 (NdArray 2 [[0; 0]]) (NdArray 1 [[1]]) = Ok (Fin 2)
  /\ 1 < 3 /\ 1 < 2.
Proof. repeat split; vm_compute; reflexivity. Qed.

Lemma bitwise_error_metric_witness :
  (0 < 2)%nat /\ has_shape 2 2 Toy.decoded /\ has_shape 2 2 Toy.messages
  /\ binary Toy.messages
  /\ exists e, bitwise_avg_err 2 Toy.decoded Toy.messages = Ok (Fin e)
               /\ 0 <= e <= 1.
Proof.
  split; [lia|]. split; [exact toy_decoded_shape|].
  split; [exact toy_messages_shape|]. split; [exact toy_messages_binary|].
  destruct (bitwise_error_metric 2 2 Toy.decoded Toy.messages
              ltac:(lia) ltac:(lia) toy_decoded_shape toy_messages_shape
              toy_messages_binary) as (e & He & _ & Hb & _).
  exists e. by split.
Defined.

Lemma validate_on_batch_pure_witness :
  validate_on_batch Toy.framework Toy.images Toy.messages Toy.model
  = (Toy.validated, Ok (Toy.validate_losses, Toy.validate_out))
  /\ parameters (encoder_decoder Toy.validated) = parameters (encoder_decoder Toy.model)
  /\ exists m2 out2,
       validate_on_batch Toy.framework Toy.images Toy.messages Toy.validated
       = (m2, Ok (Toy.validate_losses, out2)).
Proof.
  split; [exact toy_first_validate|].
  destruct (validate_on_batch_pure Toy.framework Toy.images Toy.messages Toy.model)
    as [Hframe Hagain].
  split.
  - exact (proj1 (Hframe _ _ toy_first_validate)).
  - exact (Hagain _ _ _ toy_first_validate).
Defined.



(** Against C6 as stated, too: on a batch that meets every condition the
    mean-squared errors, and with them the joint loss, are infinite when
    the squared differences sum beyond the range of the floats. *)
Lemma infinite_mean_squared_error :
  constructed Toy.diverged
  /\ has_shape 2 3 Toy.images /\ has_shape 2 2 Toy.messages
  /\ binary Toy.messages
  /\ succeeded (snd (validate_on_batch Toy.framework Toy.images Toy.messages
                       Toy.diverged)) = true
  /\ dict_get "encoder_mse" Toy.diverged_losses = Some PInf
  /\ dict_get "dec_mse" Toy.diverged_losses = Some PInf
  /\ dict_get "unet_loss" Toy.diverged_losses = Some PInf.
Proof.
  split; [repeat split|]. split; [exact toy_images_shape|].
  split; [exact toy_messages_shape|]. split; [exact toy_messages_binary|].
  repeat split; vm_compute; reflexivity.
Qed.



(** * Further properties of the methods *)

Section ConstructionFacts.

Variable T : Collaborators.

#[local] Arguments getitem : simpl never.
#[local] Arguments Adam : simpl never.

Lemma getitem_Ok (cfg : gmap string PyVal) (k : string) (v : PyVal) :
  getitem cfg k = Ok v -> cfg !! k = Some v.
Proof. unfold getitem. destruct (cfg !! k); congruence. Qed.

Lemma getitem_Err (cfg : gmap string PyVal) (k : string) (e : exn) :
  getitem cfg k = Err e -> cfg !! k = None /\ e = KeyError k.
Proof. unfold getitem. destruct (cfg !! k); [discriminate|]. by intros [= <-]. Qed.

Lemma Adam_Ok (o : Owner) (md : Module_) (opt : Optimizer) :
  Adam o md = Ok opt -> parameters md <> [] /\ opt = MkOptimizer o (MkAdam 0 [] []).
Proof. unfold Adam. destruct (parameters md); [discriminate|]. by intros [= <-]. Qed.

Lemma Adam_Err (o : Owner) (md : Module_) (e : exn) :
  Adam o md = Err e ->
  parameters md = [] /\ e = ValueError "optimizer got an empty parameter list".
Proof. unfold Adam. destruct (parameters md); [|discriminate]. by intros [= <-]. Qed.

Ltac run_init H :=
  unfold init, mbind, result_bind, mret, result_ret in H; cbn in H;
  case_call H; cbn in H.

(** X1.  What a successful construction gives: the configuration is kept as
    passed, every key [__init__] reads was present, the labels are 1 and 0,
    each optimizer is a fresh Adam over its own sub-model, both sub-models
    have parameters, are in training mode and have no gradients, the logger
    is the [tb_logger] keyword (or none), and no call of a training or
    validation step has been made. *)
Theorem init_state (cfg kwargs : gmap string PyVal) (m : UnetModel) :
  init T cfg kwargs = Ok m ->
  config m = cfg
  /\ (forall k, k ∈ init_keys -> is_Some (cfg !! k))
  /\ cover_label m = 1 /\ encoded_label m = 0
  /\ optimizer_enc_dec m = MkOptimizer EncDec (MkAdam 0 [] [])
  /\ optimizer_discrim m = MkOptimizer Discrim (MkAdam 0 [] [])
  /\ parameters (encoder_decoder m) <> [] /\ parameters (discriminator m) <> []
  /\ training (encoder_decoder m) = true /\ training (discriminator m) = true
  /\ grad (encoder_decoder m) = [] /\ grad (discriminator m) = []
  /\ tb_logger m = kwargs !! "tb_logger"
  /\ calls m = [].
Proof.
  intros H. run_init H. injection H as <-. cbn.
  repeat match goal with
    | Hq : Adam _ _ = Ok _ |- _ => apply Adam_Ok in Hq as [? ->]
    | Hq : getitem _ _ = Ok _ |- _ => apply getitem_Ok in Hq
    end.
  repeat split; try done.
  intros k Hk. unfold init_keys in Hk.
  repeat (apply elem_of_cons in Hk as [-> | Hk]; [by eexists|]).
  by apply elem_of_nil in Hk.
Qed.

(** X2.  How construction fails: with the [KeyError] of a key [__init__]
    reads that is absent, with the error of one of the constructors it
    calls, or with the [ValueError] of an optimizer over a sub-model that has
    no parameters.  The device is read first: without a [device] key the
    error is [KeyError('device')] whatever else the configuration holds. *)
Theorem init_errors (cfg kwargs : gmap string PyVal) :
  (forall e, init T cfg kwargs = Err e ->
     (exists k, k ∈ init_keys /\ cfg !! k = None /\ e = KeyError k)
     \/ constructor_error T e
     \/ e = ValueError "optimizer got an empty parameter list")
  /\ (cfg !! "device" = None -> init T cfg kwargs = Err (KeyError "device")).
Proof.
  split.
  - intros e H. run_init H. 
    all: try discriminate H.
    all: injection H as <-.
    all: lazymatch goal with
      | Hx : getitem _ ?k = Err _ |- _ =>
          apply getitem_Err in Hx as [? ->]; left; exists k;
          split; [unfold init_keys; set_solver|done]
      | Hx : Adam _ _ = Err _ |- _ => apply Adam_Err in Hx as [_ ->]; by right; right
      | Hx : torch_device _ _ = Err _ |- _ => right; left; left; eauto
      | Hx : to_device _ _ = Err _ |- _ => right; left; right; left; eauto
      | Hx : Noiser _ _ = Err _ |- _ => right; left; right; right; left; eauto
      | Hx : UnetEncoderDecoder _ _ = Err _ |- _ =>
          right; left; right; right; right; left; eauto
      | Hx : Discriminator _ _ = Err _ |- _ =>
          right; left; right; right; right; right; eauto
      end.
  - intros Hnone. unfold init, getitem. by rewrite Hnone.
Qed.

End ConstructionFacts.

Section MethodFacts.

Variable T : Collaborators.

(** X3.  Whatever a call of [train_on_batch] or [validate_on_batch] does
    and however it ends, the object keeps what construction set up: the
    configuration, the device, the logger, the two labels, the constructor
    arguments of the sub-models and the sub-model each optimizer holds. *)
Theorem methods_keep_construction
    (run : ndarray -> ndarray -> M (LossSet * (Tensor * Tensor * Tensor)))
    (images messages : ndarray) (m m' : UnetModel)
    (r : result (LossSet * (Tensor * Tensor * Tensor))) :
  run = train_on_batch T \/ run = validate_on_batch T ->
  constructed m ->
  run images messages m = (m', r) ->
  constructed m'
  /\ config m' = config m /\ device m' = device m /\ tb_logger m' = tb_logger m
  /\ hyper (encoder_decoder m') = hyper (encoder_decoder m)
  /\ hyper (discriminator m') = hyper (discriminator m).
Proof.
  intros Hrun Hc H. open_model m Hc.
  destruct r as [[ls out]|e], Hrun as [-> | ->].
  - run H. by cbn.
  - run H. by cbn.
  - run_raise H ltac:(by cbn).
  - run_raise H ltac:(by cbn).
Qed.

Lemma all_zero_zeros (g : list Q) : all_zero (List.map (fun _ => 0) g) = true.
Proof. induction g as [|x g IH]; [done|]. cbn. exact IH. Qed.

(** X4.  [train_on_batch] is not atomic.  An error that no collaborator and
    no broadcast raised is one of two.  Either it is the [IndexError] of a
    shape lookup: of [images.shape[0]] on an [images] tensor of no
    dimension, before anything is done, or of [messages.shape[1]] on a
    [messages] tensor of fewer than two dimensions, when both optimizers
    have taken their step.  Or it is the error of a loss weight that is
    missing, is not a number or is an [int] beyond 64 bits, and by then the
    discriminator has taken its optimizer step; the encoder-decoder has its
    gradients cleared and its parameters and optimizer untouched. *)
Theorem weight_error_after_discriminator_step
    (images messages : Input) (m m' : UnetModel) (e : exn) :
  constructed m ->
  train_on_batch T images messages m = (m', Err e) ->
  ~ collaborator_error T e -> ~ broadcast_error e ->
  (index_error e
   /\ ((shape images = [] /\ m' = m)
       \/ (shape messages !! 1%nat = None
           /\ (state (optimizer_enc_dec m'), parameters (encoder_decoder m'))
              = adam_step T (state (optimizer_enc_dec m))
                  (parameters (encoder_decoder m)) (grad (encoder_decoder m'))
           /\ exists g,
                (state (optimizer_discrim m'), parameters (discriminator m'))
                = adam_step T (state (optimizer_discrim m))
                    (parameters (discriminator m)) g)))
  \/ (weight_error (config m) e
      /\ (exists d_cov d_enc enc g,
            calls m' = calls m ++
              [ EvTrain EncDec; EvTrain Discrim;
                EvZeroGrad Discrim;
                EvForward Discrim [view images] false;
                EvBackward d_cov;
                EvForward EncDec [view images; view messages] false;
                EvForward Discrim [enc] false;
                EvBackward d_enc;
                EvStep Discrim;
                EvZeroGrad EncDec;
                EvForward Discrim [enc] true ]
            /\ (state (optimizer_discrim m'), parameters (discriminator m'))
               = adam_step T (state (optimizer_discrim m))
                   (parameters (discriminator m)) g)
      /\ parameters (encoder_decoder m') = parameters (encoder_decoder m)
      /\ optimizer_enc_dec m' = optimizer_enc_dec m
      /\ all_zero (grad (encoder_decoder m')) = true).
Proof.
  intros Hc H Hnc Hnb. open_model m Hc.
  run_raise H ltac:(
    idtac; lazymatch goal with
    | Hx : shape_getitem _ 0 = Err _ |- _ =>
        left; apply shape_getitem_Err in Hx as [? Hx]; apply shape_0_None in Hx;
        split; [done|]; by left
    | Hx : discrim_forward _ _ _ = Err _ |- _ => exfalso; apply Hnc; left; eauto
    | Hx : enc_dec_forward _ _ _ _ = Err _ |- _ =>
        exfalso; apply Hnc; right; left; eauto
    | Hx : bce_with_logits _ _ _ = Err _ |- _ =>
        exfalso; apply Hnc; right; right; eauto
    | Hx : Np.broadcast2 _ _ _ = Err _ |- _ =>
        exfalso; apply Hnb; exact mse_loss_broadcast_error
    | Hx : bitwise_avg_err _ _ _ = Err _ |- _ =>
        apply bitwise_avg_err_raises in Hx as [Hx | [? Hx]];
        [ exfalso; by apply Hnb
        | left; split; [done|]; right; split; [done|] ]
    | Hx : joint_loss _ _ _ _ = Err _ |- _ =>
        right; split; [exact (joint_loss_Err _ _ _ _ _ Hx)|]
    end).
  - cbn. split.
    + do 4 eexists. split; [rewrite <- !app_assoc; reflexivity|].
      match goal with Hs : adam_step _ _ _ _ = _ |- _ => rewrite <- Hs end.
      reflexivity.
    + rewrite !vadd_nil_r. repeat split. apply all_zero_zeros.
  - cbn.
    lazymatch goal with
    | HD : adam_step T ?sd ?pd ?gd = (?sd', ?pd'),
      HE : adam_step T ?se ?pe ?ge = (?se', ?pe')
      |- (?se', ?pe') = _ /\ _ =>
        split; [symmetry; exact HE|]; exists gd; symmetry; exact HD
    end.
Qed.

(** X5.  A call of [validate_on_batch] that returns has switched both
    sub-models to evaluation mode, run the discriminator on the images, the
    encoder-decoder once, and the discriminator twice on the encoded images.
    The two passes on the encoded images give the same logits: the
    adversarial loss of the generator and the loss of the discriminator on
    the encoded images are the cross-entropy of these logits, once against
    the cover label and once against the encoded label. *)
Theorem validate_on_batch_protocol
    (images messages : ndarray) (m m' : UnetModel) (ls : LossSet)
    (enc noi dec : Tensor) :
  validate_on_batch T images messages m = (m', Ok (ls, (enc, noi, dec))) ->
  exists (md : Module_) (y : ndarray) (g e_mse d_mse err g_adv d_cov d_enc : npfloat),
    calls m' = calls m ++
      [ EvEval EncDec; EvEval Discrim;
        EvForward Discrim [images] false;
        EvForward EncDec [images; messages] false;
        EvForward Discrim [data enc] false;
        EvForward Discrim [data enc] false ]
    /\ parameters md = parameters (discriminator m)
    /\ training md = false
    /\ discrim_forward T md (data enc) = Ok y
    /\ bce_with_logits T y (Np.full (shape0 images) 1 (cover_label m)) = Ok g_adv
    /\ bce_with_logits T y (Np.full (shape0 images) 1 (encoded_label m)) = Ok d_enc
    /\ ls = [ (value T unet_loss, g); (value T encoder_mse, e_mse);
              (value T decoder_mse, d_mse); (value T bitwise, err);
              (value T gen_adv_bce, g_adv); (value T discr_cov_bce, d_cov);
              (value T discr_enc_bce, d_enc) ].
Proof.
  intros H. open_object m. run H. rewrite losses_entries.
  lazymatch goal with
  | Hf : discrim_forward T ?md ?x = Ok ?y,
    He : enc_dec_forward T _ _ _ = Ok (?x, _, _) |- _ => exists md, y
  end.
  do 7 eexists. cbn.
  split; [rewrite <- !app_assoc; reflexivity|].
  split; [reflexivity|]. split; [reflexivity|]. split; [eassumption|].
  split; [eassumption|]. split; [eassumption|]. reflexivity.
Qed.

(** X6.  The tensors [train_on_batch] returns are the outputs of the
    encoder-decoder in training mode with the parameters it had before the
    call, not the updated ones, and they still require a gradient.  Those
    [validate_on_batch] returns are the outputs in evaluation mode and
    require none. *)
Theorem returned_tensors (images messages : ndarray) (m : UnetModel) :
  constructed m ->
  (forall m' ls enc noi dec,
     train_on_batch T images messages m = (m', Ok (ls, (enc, noi, dec))) ->
     (requires_grad enc = true /\ requires_grad noi = true
      /\ requires_grad dec = true)
     /\ exists md,
          training md = true
          /\ parameters md = parameters (encoder_decoder m)
          /\ hyper md = hyper (encoder_decoder m)
          /\ enc_dec_forward T md images messages
             = Ok (data enc, data noi, data dec))
  /\ (forall m' ls enc noi dec,
       validate_on_batch T images messages m = (m', Ok (ls, (enc, noi, dec))) ->
       (requires_grad enc = false /\ requires_grad noi = false
        /\ requires_grad dec = false)
       /\ exists md,
            training md = false
            /\ parameters md = parameters (encoder_decoder m)
            /\ hyper md = hyper (encoder_decoder m)
            /\ enc_dec_forward T md images messages
               = Ok (data enc, data noi, data dec)).
Proof.
  intros Hc. open_model m Hc. split; intros m' ls enc noi dec H; run H;
    (split; [by cbn|]);
    lazymatch goal with
    | He : enc_dec_forward T ?md _ _ = Ok _ |- _ => exists md
    end; cbn; repeat split; assumption.
Qed.


End MethodFacts.

Section MetricFacts.

Lemma round1_below_half (q : Q) : 0 <= q -> q <= 1 # 2 -> round1 q = 0.
Proof.
  intros H0 Hh. unfold round1. rewrite (Qfloor_unit q H0) by lra.
  change (inject_Z 0) with 0.
  destruct (q - 0 ?= 1 # 2) eqn:E; try reflexivity.
  rewrite <- Qgt_alt in E. lra.
Qed.

Lemma round1_above_half (q : Q) : 1 # 2 < q -> q < 1 -> round1 q = 1.
Proof.
  intros Hh H1. unfold round1. rewrite (Qfloor_unit q) by lra.
  change (inject_Z 0) with 0.
  destruct (q - 0 ?= 1 # 2) eqn:E; try reflexivity.
  - rewrite <- Qeq_alt in E. lra.
  - rewrite <- Qlt_alt in E. lra.
Qed.

(** The decoded bit of one value. *)
Lemma decoded_bit_threshold (q : Q) :
  clip1 0 1 (round1 q) = if Qle_bool q (1 # 2) then 0 else 1.
Proof.
  destruct (Qle_bool q (1 # 2)) eqn:E.
  - apply Qle_bool_iff in E. destruct (Qlt_le_dec q 0) as [Hneg|Hpos].
    + destruct (round1_integer q) as (z & -> & Hz).
      pose proof (Qfloor_neg q Hneg). rewrite clip1_unit_inject_Z.
      replace (Z.min (Z.max z 0) 1) with 0%Z by lia. reflexivity.
    + by rewrite round1_below_half.
  - assert (Hh : 1 # 2 < q).
    { apply Qnot_le_lt. intros H. apply Qle_bool_iff in H. congruence. }
    destruct (Qlt_le_dec q 1) as [Hlt|Hge].
    + by rewrite round1_above_half.
    + destruct (round1_integer q) as (z & -> & Hz).
      assert (1 <= Qfloor q)%Z.
      { change 1%Z with (Qfloor (inject_Z 1)). by apply Qfloor_resp_le. }
      rewrite clip1_unit_inject_Z.
      replace (Z.min (Z.max z 0) 1) with 1%Z by lia. reflexivity.
Qed.

(** X8.  Rounding then clipping decodes a value to 1 exactly when it is
    above one half, and to 0 otherwise; one half itself decodes to 0. *)
Theorem decoded_rounded_threshold (decoded : ndarray) :
  decoded_rounded decoded
  = Np.map (fun q => if Qle_bool q (1 # 2) then 0 else 1) decoded.
Proof.
  unfold decoded_rounded, Np.clip, Np.round, Np.map. cbn. f_equal.
  rewrite List.map_map. apply List.map_ext. intros r.
  rewrite List.map_map. apply List.map_ext. intros q.
  apply decoded_bit_threshold.
Qed.

Lemma bit_mismatch (x y : Q) :
  x = 0 \/ x = 1 -> y == 0 \/ y == 1 ->
  Qabs (x - y) == Qnat (if Qeq_bool x y then 0 else 1).
Proof.
  intros [-> | ->] [Hy | Hy]; rewrite Hy; reflexivity.
Qed.

Lemma row_mismatch_sum (r m : list Q) :
  Forall2 (fun x y => (x = 0 \/ x = 1) /\ (y == 0 \/ y == 1)) r m ->
  Np.Qsum (List.map Qabs (zip_with Qminus r m)) == Qnat (row_mismatches r m).
Proof.
  induction 1 as [|x y r m [Hx Hy] _ IH]; [reflexivity|].
  change (Np.Qsum (List.map Qabs (zip_with Qminus (x :: r) (y :: m))))
    with (Qabs (x - y) + Np.Qsum (List.map Qabs (zip_with Qminus r m))).
  change (row_mismatches (x :: r) (y :: m))
    with ((if Qeq_bool x y then 0 else 1) + row_mismatches r m)%nat.
  rewrite Qnat_add, IH, (bit_mismatch x y Hx Hy). reflexivity.
Qed.

Lemma rows_mismatch_sum (ra rm : list (list Q)) :
  Forall2 (Forall2 (fun x y => (x = 0 \/ x = 1) /\ (y == 0 \/ y == 1))) ra rm ->
  Np.Qsum (List.map Np.Qsum
             (List.map (List.map Qabs) (zip_with (zip_with Qminus) ra rm)))
  == Qnat (mismatches ra rm).
Proof.
  induction 1 as [|r m ra rm Hrow _ IH]; [reflexivity|].
  change (Np.Qsum (List.map Np.Qsum (List.map (List.map Qabs)
            (zip_with (zip_with Qminus) (r :: ra) (m :: rm)))))
    with (Np.Qsum (List.map Qabs (zip_with Qminus r m))
          + Np.Qsum (List.map Np.Qsum (List.map (List.map Qabs)
                       (zip_with (zip_with Qminus) ra rm)))).
  change (mismatches (r :: ra) (m :: rm))
    with (row_mismatches r m + mismatches ra rm)%nat.
  rewrite Qnat_add, IH, (row_mismatch_sum r m Hrow). reflexivity.
Qed.

Lemma entrywise_bit_pairs (n l : nat) (decoded messages : ndarray) :
  has_shape n l decoded -> has_shape n l messages -> binary messages ->
  entrywise (fun x y => (x = 0 \/ x = 1) /\ (y == 0 \/ y == 1))
    (decoded_rounded decoded) messages.
Proof.
  intros (Hd0 & Hd1 & Hdw) (Hm0 & Hm1 & Hmw) Hbin.
  unfold entrywise, decoded_rounded, Np.clip, Np.round, Np.map. simpl.
  unfold shape0, Np.wf, binary in *. rewrite Hd1 in Hdw. rewrite Hm1 in Hmw.
  rewrite List.map_map.
  assert (Hlen : length (rows decoded) = length (rows messages)) by congruence.
  clear Hd0 Hm0 Hd1 Hm1.
  revert Hlen Hdw Hmw Hbin.
  generalize (rows decoded) (rows messages).
  induction l0 as [|r ra IH]; intros [|m rm] Hlen Hdw Hmw Hbin;
    simpl in Hlen; try discriminate; constructor.
  - inversion Hdw as [|? ? Hr Hdw']; inversion Hmw as [|? ? Hmr Hmw'];
      inversion Hbin as [|? ? Hb Hbin']; subst.
    rewrite List.map_map.
    assert (Hrl : length r = length m) by congruence.
    clear - Hrl Hb. revert m Hrl Hb.
    induction r as [|x r IHr]; intros [|y m] Hrl Hb; simpl in Hrl;
      try discriminate; constructor.
    + inversion Hb; subst. split; [apply decoded_rounded_bit|done].
    + inversion Hb; subst. apply IHr; [lia|done].
  - inversion Hdw; inversion Hmw; inversion Hbin; subst.
    apply IH; [lia|done..].
Qed.

(** X9.  On a batch of [n >= 1] messages of [l >= 1] true bits the bitwise
    error is the number of positions at which the decoded bit differs from
    the true bit, over [n * l]. *)
Theorem bitwise_error_counts_mismatches (n l : nat) (decoded messages : ndarray) :
  (0 < n)%nat -> (0 < l)%nat ->
  has_shape n l decoded -> has_shape n l messages -> binary messages ->
  exists e : Q,
    bitwise_avg_err n decoded messages = Ok (Fin e)
    /\ e == Qnat (mismatches (rows (decoded_rounded decoded)) (rows messages))
            / Qnat (n * l)
    /\ (mismatches (rows (decoded_rounded decoded)) (rows messages) <= n * l)%nat.
Proof.
  intros Hn Hl Hd Hm Hbin. assert (Hpos : (0 < n * l)%nat) by lia.
  exists (spec_bitwise_error n l decoded messages).
  split; [by apply bitwise_avg_err_value|].
  pose proof (rows_mismatch_sum _ _ (entrywise_bit_pairs n l _ _ Hd Hm Hbin)) as Hsum.
  assert (He : spec_bitwise_error n l decoded messages
               == Qnat (mismatches (rows (decoded_rounded decoded)) (rows messages))
                  / Qnat (n * l)).
  { unfold spec_bitwise_error.
    rewrite <- decoded_rounded_spec, <- zip_with_distance, Hsum. reflexivity. }
  split; [exact He|].
  pose proof (spec_bitwise_error_bounds 0 1 n l decoded messages Hpos Hd
                (entrywise_bits n l _ _ Hd Hm Hbin)) as [_ Hhi].
  rewrite He in Hhi. pose proof (Qnat_pos _ Hpos) as Hq.
  assert (Hle : (Qnat (mismatches (rows (decoded_rounded decoded)) (rows messages))
                 <= Qnat (n * l))).
  { apply Qmult_le_r with (z := / Qnat (n * l)); [by apply Qinv_lt_0_compat|].
    rewrite Qmult_inv_r by lra. exact Hhi. }
  unfold Qnat in Hle. rewrite <- Zle_Qle in Hle. lia.
Qed.

End MetricFacts.

Section EdgeFacts.

Lemma empty_rows_sum (ra rm : list (list Q)) :
  Forall (fun r => length r = 0%nat) ra ->
  Np.Qsum (List.map Np.Qsum
             (List.map (List.map Qabs) (zip_with (zip_with Qminus) ra rm))) = 0.
Proof.
  intros H. revert rm. induction H as [|r ra Hr _ IH]; intros [|m rm]; try reflexivity.
  destruct r; [|discriminate]. cbn [zip_with List.map].
  change (Np.Qsum (Np.Qsum [] :: ?l)) with (0 + Np.Qsum l).
  cbn [zip_with List.map] in IH.
  unfold Np.Qsum at 1. cbn [foldr List.map]. fold Np.Qsum.
  rewrite IH. reflexivity.
Qed.

(** X10.  On an empty batch (no message, or messages of no bits) the
    bitwise error is not an error but the not-a-number of 0/0. *)
Theorem bitwise_error_of_empty_batch (n l : nat) (decoded messages : ndarray) :
  (n * l = 0)%nat ->
  has_shape n l decoded -> has_shape n l messages ->
  bitwise_avg_err n decoded messages = Ok NaN.
Proof.
  intros Hz Hd Hm. unfold bitwise_avg_err, Np.sub.
  change (view messages) with messages.
  change (shape_getitem messages 1) with (Ok (shape1 messages)).
  assert (Hr : has_shape n l (decoded_rounded decoded)).
  { unfold decoded_rounded, Np.clip, Np.round. by do 2 apply map_has_shape. }
  rewrite (broadcast2_same_shape Qminus n l _ _ Hr Hm).
  destruct Hm as (_ & -> & _). rewrite Hz.
  unfold Np.sum, Np.abs, Np.map. cbn [rows].
  rewrite empty_rows_sum; [reflexivity|].
  destruct Hr as (Hr0 & Hr1 & Hrw). unfold shape0, Np.wf in *.
  destruct n as [|n'].
  - destruct (rows (decoded_rounded decoded)); [constructor|discriminate].
  - assert (l = 0%nat) as -> by lia. by rewrite Hr1 in Hrw.
Qed.

End EdgeFacts.

Section StepFacts.

Variable T : Collaborators.

(** X12.  After a call of [train_on_batch] that returns, each optimizer has
    taken exactly one Adam step from the state and the parameters found on
    entry.  The gradients left on the encoder-decoder are the ones its step
    used.  The gradients left on the discriminator are the ones its step
    used plus what the adversarial loss of the generator sent through the
    stepped discriminator. *)
Theorem steps_and_left_gradients (images messages : ndarray) (m m' : UnetModel)
    (ls : LossSet) (enc noi dec : Tensor) :
  constructed m ->
  train_on_batch T images messages m = (m', Ok (ls, (enc, noi, dec))) ->
  (state (optimizer_enc_dec m'), parameters (encoder_decoder m'))
  = adam_step T (state (optimizer_enc_dec m)) (parameters (encoder_decoder m))
      (grad (encoder_decoder m'))
  /\ exists (g_step : list Q) (md_gen : Module_) (ct : ndarray),
       (state (optimizer_discrim m'), parameters (discriminator m'))
       = adam_step T (state (optimizer_discrim m)) (parameters (discriminator m))
           g_step
       /\ parameters md_gen = parameters (discriminator m')
       /\ grad (discriminator m')
          = vadd g_step (discrim_vjp_params T md_gen (data enc) ct).
Proof.
  intros Hc H. open_model m Hc. run H. cbn.
  lazymatch goal with
  | HD : adam_step T ?sd ?pd ?gd = (?sd', ?pd'),
    HE : adam_step T ?se ?pe ?ge = (?se', ?pe')
    |- (?se', ?pe') = _ /\ _ =>
      split; [symmetry; exact HE|]; exists gd
  end.
  do 2 eexists. split; [symmetry; eassumption|].
  unfold grads_add, only, no_grads, flow_back. cbn.
  rewrite !vadd_nil_r. split; [|reflexivity]. reflexivity.
Qed.

End StepFacts.

(** * The further properties on the small instance *)

Lemma toy_init :
  init Toy.framework Toy.config ∅ = Ok Toy.model.
Proof. vm_compute. reflexivity. Defined.

Lemma init_state_witness :
  init Toy.framework Toy.config ∅ = Ok Toy.model
  /\ config Toy.model = Toy.config
  /\ calls Toy.model = [].
Proof.
  split; [exact toy_init|].
  destruct (init_state Toy.framework Toy.config ∅ Toy.model toy_init)
    as (Hcfg & _ & _ & _ & _ & _ & _ & _ & _ & _ & _ & _ & _ & Hcalls).
  by split.
Defined.

Lemma init_errors_witness :
  delete "device" Toy.config !! "device" = None
  /\ init Toy.framework (delete "device" Toy.config) ∅ = Err (KeyError "device").
Proof.
  assert (Hnone : delete "device" Toy.config !! "device" = None)
    by apply lookup_delete_eq.
  split; [exact Hnone|].
  exact (proj2 (init_errors Toy.framework (delete "device" Toy.config) ∅) Hnone).
Defined.

Lemma methods_keep_construction_witness :
  constructed Toy.model
  /\ train_on_batch Toy.framework Toy.images Toy.messages Toy.model
     = (Toy.trained,
        Ok (Toy.train_losses, (Toy.train_encoded, Toy.train_noised, Toy.train_decoded)))
  /\ constructed Toy.trained /\ config Toy.trained = config Toy.model.
Proof.
  split; [exact toy_model_constructed|]. split; [exact toy_first_train|].
  destruct (methods_keep_construction Toy.framework (train_on_batch Toy.framework)
              Toy.images Toy.messages Toy.model _ _
              (or_introl eq_refl) toy_model_constructed toy_first_train)
    as (Hc & Hcfg & _).
  by split.
Defined.

Lemma toy_never_key_error (k : string) :
  ~ collaborator_error Toy.framework (KeyError k).
Proof.
  intros [(md & x & H) | [(md & x & y & H) | (x & t & H)]]; cbn in H.
  - discriminate H.
  - unfold Toy.enc_dec_forward in H.
    destruct (shape0 x =? shape0 y)%nat; discriminate H.
  - unfold Toy.bce_with_logits in H.
    destruct (Toy.same_shape x t); [|discriminate H].
    destruct (Np.broadcast2 Toy.sq_diff x t) eqn:E; [discriminate H|].
    injection H as ->. apply broadcast2_Err in E as [E | E]; discriminate E.
Defined.

Lemma toy_failed_train :
  train_on_batch Toy.framework Toy.images Toy.messages Toy.unweighted
  = (fst Toy.failed_train, Err (KeyError "adv_loss_weight")).
Proof. vm_compute. reflexivity. Defined.

(** An [int] of 70 bits as adversarial weight: the joint loss raises. *)
Lemma big_int_weight_raises :
  snd (train_on_batch Toy.framework Toy.images Toy.messages
         (Toy.construct Toy.config_big_int))
  = Err (OverflowError "int too big to convert").
Proof. vm_compute. reflexivity. Qed.

Lemma weight_error_after_discriminator_step_witness :
  constructed Toy.unweighted
  /\ train_on_batch Toy.framework Toy.images Toy.messages Toy.unweighted
     = (fst Toy.failed_train, Err (KeyError "adv_loss_weight"))
  /\ ~ collaborator_error Toy.framework (KeyError "adv_loss_weight")
  /\ ~ broadcast_error (KeyError "adv_loss_weight")
  /\ parameters (encoder_decoder (fst Toy.failed_train))
     = parameters (encoder_decoder Toy.unweighted)
  /\ all_zero (grad (encoder_decoder (fst Toy.failed_train))) = true.
Proof.
  assert (Hc : constructed Toy.unweighted) by (repeat split).
  assert (Hnb : ~ broadcast_error (KeyError "adv_loss_weight"))
    by (intros [H | H]; discriminate H).
  split; [exact Hc|]. split; [exact toy_failed_train|].
  split; [apply toy_never_key_error|]. split; [exact Hnb|].
  destruct (weight_error_after_discriminator_step Toy.framework Toy.images
              Toy.messages Toy.unweighted _ _ Hc toy_failed_train
              (toy_never_key_error _) Hnb)
    as [[Hi _] | (_ & _ & Hp & _ & Hz)].
  - discriminate Hi.
  - by split.
Defined.

Lemma toy_validate_tensors :
  validate_on_batch Toy.framework Toy.images Toy.messages Toy.model
  = (Toy.validated,
     Ok (Toy.validate_losses,
         (fst (fst Toy.validate_out), snd (fst Toy.validate_out),
          snd Toy.validate_out))).
Proof. vm_compute. reflexivity. Defined.

Lemma validate_on_batch_protocol_witness :
  validate_on_batch Toy.framework Toy.images Toy.messages Toy.model
  = (Toy.validated,
     Ok (Toy.validate_losses,
         (fst (fst Toy.validate_out), snd (fst Toy.validate_out),
          snd Toy.validate_out)))
  /\ calls Toy.validated =
     [ EvEval EncDec; EvEval Discrim;
       EvForward Discrim [Toy.images] false;
       EvForward EncDec [Toy.images; Toy.messages] false;
       EvForward Discrim [data (fst (fst Toy.validate_out))] false;
       EvForward Discrim [data (fst (fst Toy.validate_out))] false ].
Proof.
  split; [exact toy_validate_tensors|].
  destruct (validate_on_batch_protocol Toy.framework Toy.images Toy.messages
              Toy.model _ _ _ _ _ toy_validate_tensors)
    as (_ & _ & _ & _ & _ & _ & _ & _ & _ & Hcalls & _).
  exact Hcalls.
Defined.

Lemma returned_tensors_witness :
  constructed Toy.model
  /\ train_on_batch Toy.framework Toy.images Toy.messages Toy.model
     = (Toy.trained,
        Ok (Toy.train_losses, (Toy.train_encoded, Toy.train_noised, Toy.train_decoded)))
  /\ requires_grad Toy.train_encoded = true
  /\ requires_grad Toy.train_noised = true
  /\ requires_grad Toy.train_decoded = true.
Proof.
  split; [exact toy_model_constructed|]. split; [exact toy_first_train|].
  exact (proj1 (proj1 (returned_tensors Toy.framework Toy.images Toy.messages
                         Toy.model toy_model_constructed)
                  _ _ _ _ _ toy_first_train)).
Defined.

Lemma bitwise_error_counts_mismatches_witness :
  (0 < 2)%nat /\ has_shape 2 2 Toy.decoded /\ has_shape 2 2 Toy.messages
  /\ binary Toy.messages
  /\ exists e, bitwise_avg_err 2 Toy.decoded Toy.messages = Ok (Fin e)
               /\ e == 1 # 4.
Proof.
  split; [lia|]. split; [exact toy_decoded_shape|].
  split; [exact toy_messages_shape|]. split; [exact toy_messages_binary|].
  destruct (bitwise_error_counts_mismatches 2 2 Toy.decoded Toy.messages
              ltac:(lia) ltac:(lia) toy_decoded_shape toy_messages_shape
              toy_messages_binary) as (e & He & Hv & _).
  exists e. split; [exact He|]. rewrite Hv. reflexivity.
Defined.

Lemma bitwise_error_of_empty_batch_witness :
  (0 * 2 = 0)%nat /\ has_shape 0 2 (NdArray 2 [])
  /\ bitwise_avg_err 0 (NdArray 2 []) (NdArray 2 []) = Ok NaN.
Proof.
  assert (Hs : has_shape 0 2 (NdArray 2 [])) by (repeat split; constructor).
  split; [reflexivity|]. split; [exact Hs|].
  exact (bitwise_error_of_empty_batch 0 2 _ _ eq_refl Hs Hs).
Defined.

Lemma steps_and_left_gradients_witness :
  constructed Toy.model
  /\ train_on_batch Toy.framework Toy.images Toy.messages Toy.model
     = (Toy.trained,
        Ok (Toy.train_losses, (Toy.train_encoded, Toy.train_noised, Toy.train_decoded)))
  /\ (state (optimizer_enc_dec Toy.trained), parameters (encoder_decoder Toy.trained))
     = adam_step Toy.framework (state (optimizer_enc_dec Toy.model))
         (parameters (encoder_decoder Toy.model))
         (grad (encoder_decoder Toy.trained)).
Proof.
  split; [exact toy_model_constructed|]. split; [exact toy_first_train|].
  exact (proj1 (steps_and_left_gradients Toy.framework Toy.images Toy.messages
                  Toy.model _ _ _ _ _ toy_model_constructed toy_first_train)).
Defined.
